(** * socket-loader: handler discovery and binding

    A shallow embedding of [src/index.js] (class [Loader]) and the
    properties of its scan / accumulate / bind / dispatch pipeline.

    The host platform (Node's [fs], [path], [require], the classes defined
    by user modules) is a record of functions, [Host]; the facade objects,
    the server's listener table and the instances created by [new] live in
    an explicit store, [World]; what the program writes to the logger and
    which handlers it calls is an output trace of [event]s.

    User code is observed, not interpreted. A call of an ordinary
    function is recorded as an [ECall] and then returns or throws, as the
    host says for that function and those arguments; a constructor
    returns its object or throws; the [connection] member of an instance
    is a method (a function on the properties of its instance that
    returns or throws) or a value that cannot be bound. What JavaScript
    itself refuses (destructuring [null], calling a class without [new],
    [new] on something that is no constructor, [.bind] on something that
    has none) raises. User code is taken not to call back into the facade
    or into the server's listener table.

    A JavaScript string is carried as the bytes of its UTF-8 encoding. *)

From Stdlib Require Import String Ascii List ZArith Bool Lia.
From stdpp Require Import gmap strings list fin_maps.
Import ListNotations.

Local Open Scope string_scope.
Local Open Scope list_scope.

(** ** JavaScript values *)

(** A function object is either an ordinary callable or a class
    constructor (callable only through [new]). *)
Inductive fkind := Plain | Ctor.

(** [VFunc id src k]: the function object [id], whose [toString()] is
    [src]. [VBound inst] is [instance.connection.bind(instance)]. *)
Inductive value :=
| VUndefined
| VNum (n : Z)
| VStr (s : string)
| VServer (id : nat)
| VSocket (id : nat)
| VFunc (id : nat) (src : string) (k : fkind)
| VBound (inst : nat).

Global Instance fkind_eq_dec : EqDecision fkind.
Proof. solve_decision. Defined.

Global Instance value_eq_dec : EqDecision value.
Proof. solve_decision. Defined.

(** [typeof v === 'function'] *)
Definition is_function (v : value) : bool :=
  match v with
  | VFunc _ _ _ | VBound _ => true
  | _ => false
  end.

(** [v.toString()] for a function value; a bound function prints as
    native code. *)
Definition to_string (v : value) : string :=
  match v with
  | VFunc _ src _ => src
  | VBound _ => "function () { [native code] }"
  | _ => ""
  end.

(** ** Strings and arrays the way the source uses them *)

Definition ascii_eqb (a b : ascii) : bool := bool_decide (a = b).

(** The three-byte characters matched by [\s]: U+1680, U+2000 to
    U+200A, U+2028, U+2029, U+202F, U+205F, U+3000 and U+FEFF. *)
Definition three_byte_space (b0 b1 b2 : nat) : bool :=
  ((b0 =? 225) && (b1 =? 154) && (b2 =? 128))%nat
  || ((b0 =? 226) && (b1 =? 128)
      && (((128 <=? b2) && (b2 <=? 138)) || (b2 =? 168) || (b2 =? 169) || (b2 =? 175)))%nat
  || ((b0 =? 226) && (b1 =? 129) && (b2 =? 159))%nat
  || ((b0 =? 227) && (b1 =? 128) && (b2 =? 128))%nat
  || ((b0 =? 239) && (b1 =? 187) && (b2 =? 191))%nat.

(** One character matched by [\s] at the head of [s], taken off: the
    ASCII ones (tab to carriage return, and the space), U+00A0, and the
    three-byte ones. [None] when [s] does not start with one. *)
Definition strip_space (s : string) : option string :=
  match s with
  | EmptyString => None
  | String c0 r0 =>
      let b0 := nat_of_ascii c0 in
      if ((b0 =? 32) || ((9 <=? b0) && (b0 <=? 13)))%nat then Some r0
      else
        match r0 with
        | EmptyString => None
        | String c1 r1 =>
            let b1 := nat_of_ascii c1 in
            if ((b0 =? 194) && (b1 =? 160))%nat then Some r1
            else
              match r1 with
              | EmptyString => None
              | String c2 r2 =>
                  if three_byte_space b0 b1 (nat_of_ascii c2) then Some r2 else None
              end
        end
  end.

Fixpoint skip_spaces_go (n : nat) (s : string) : string :=
  match n with
  | O => s
  | S n' =>
      match strip_space s with
      | Some rest => skip_spaces_go n' rest
      | None => s
      end
  end.

(** [s] without the white space [\s*] matches at its head. *)
Definition skip_spaces (s : string) : string := skip_spaces_go (String.length s) s.

Fixpoint strip_prefix (p s : string) : option string :=
  match p, s with
  | EmptyString, _ => Some s
  | String a p', String b s' => if ascii_eqb a b then strip_prefix p' s' else None
  | String _ _, EmptyString => None
  end.

(** [/^\s*class\s+/.test(src)] *)
Definition class_shaped (src : string) : bool :=
  match strip_prefix "class" (skip_spaces src) with
  | Some rest => bool_decide (is_Some (strip_space rest))
  | None => false
  end.

Fixpoint dot_free (s : string) : bool :=
  match s with
  | EmptyString => true
  | String c s' => negb (ascii_eqb c ".") && dot_free s'
  end.

(** [/[^.]+$/.exec(filename)]: the leftmost position from which a
    non-empty run of non-dot characters reaches the end of the string;
    [None] is JavaScript's [null]. *)
Fixpoint regex_exec_extension (filename : string) : option string :=
  match filename with
  | EmptyString => None
  | String c rest =>
      if dot_free filename then Some filename else regex_exec_extension rest
  end.

(** [s.charAt(0) === '.'] *)
Definition starts_with_dot (s : string) : bool :=
  match s with
  | String c _ => ascii_eqb c "."
  | EmptyString => false
  end.

Fixpoint chars (s : string) : list string :=
  match s with
  | EmptyString => []
  | String c s' => String c EmptyString :: chars s'
  end.

Fixpoint split_go (sep s : string) (skip : nat) (cur : string) : list string :=
  match s with
  | EmptyString => [cur]
  | String c s' =>
      match skip with
      | S k => split_go sep s' k cur
      | O =>
          match strip_prefix sep s with
          | Some _ => cur :: split_go sep s' (String.length sep - 1) ""
          | None => split_go sep s' 0 (cur ++ String c "")
          end
      end
  end.

(** [s.split(sep)] for a string separator. *)
Definition js_split (sep s : string) : list string :=
  match sep with
  | EmptyString => chars s
  | _ => split_go sep s 0 ""
  end.

(** [arr.indexOf(v)] as an option: the first index holding [v]. *)
Fixpoint index_of (v : value) (arr : list value) : option nat :=
  match arr with
  | [] => None
  | x :: rest => if decide (x = v) then Some 0%nat else S <$> index_of v rest
  end.

(** [arr.includes(s)] *)
Definition includes (s : string) (arr : list string) : bool :=
  bool_decide (s ∈ arr).

(** ** Data model *)

(** The logger's methods: [info], [warn], [error], [log]. *)
Inductive level := LInfo | LWarn | LError | LLog.

(** What the program does to the outside: a call of [logger[type](message)]
    or a call of a handler with its argument list. *)
Inductive event :=
| ELog (type : level) (message : string)
| ECall (callee : value) (args : list value).

Global Instance level_eq_dec : EqDecision level.
Proof. solve_decision. Defined.

Global Instance event_eq_dec : EqDecision event.
Proof. solve_decision. Defined.

Definition is_log (e : event) : bool :=
  match e with ELog _ _ => true | ECall _ _ => false end.

Definition is_error_log (e : event) : bool :=
  match e with ELog LError _ => true | _ => false end.

(** [this.options] (the logger is the sink of the [ELog] events). *)
Record Options := mkOptions {
  cwd : string;
  verbose : bool;
  extensions : list string;
  withNamespace : bool
}.

(** The fields of a [Loader] object. *)
Record Loader := mkLoader {
  options : Options;
  extraArguments : list value;
  files : list string
}.

(** An object made by [new C()]: its class and its own properties. *)
Record Instance := mkInstance {
  i_class : nat;
  i_props : gmap string value
}.

(** The closure passed to [server.on('connection', ...)]: it captures
    [this] (a reference into the store) and the array [fns]. *)
Record Listener := mkListener {
  lst_this : nat;
  lst_fns : list value
}.

(** The store: facade objects by reference, the connection listeners of
    each server in registration order, and the instances by reference. *)
Record World := mkWorld {
  loaders : list Loader;
  listeners : gmap nat (list Listener);
  instances : list Instance
}.

(** What is thrown: an [Error] or a [TypeError] with its message, or any
    other value user code throws. *)
Inductive exn :=
| JsError (message : string)
| JsTypeError (message : string)
| JsThrown (v : value).

(** What [instance.connection] holds when the instance has the property:
    a method, whose body maps the properties of [this] and the arguments
    to the properties it leaves and to what it throws, if it throws; or
    [undefined], [null], or another value that has no [bind]. *)
Inductive member :=
| Method (body : gmap string value -> list value -> option exn * gmap string value)
| Undefined
| Null
| Data.

(** A class as a user module defines it: what [new C()] gives (the
    exception the constructor throws, or the properties of the new
    object), and the [connection] member of its instances if they have
    one. *)
Record ClassDef := mkClassDef {
  cd_name : string;
  cd_construct : exn + gmap string value;
  cd_connection : option member
}.

(** The host platform: [path], [fs], [require], the ordinary functions
    user modules export and the classes behind the constructor function
    objects (both by function id). [require] gives the module's values in
    [Object.keys] order, or the message of the error it throws;
    [fn_body id args] is what the function [id] throws when called with
    [args], [None] when it returns. *)
Record Host := mkHost {
  path_sep : string;
  path_join : string -> string -> string;
  existsSync : string -> bool;
  isDirectory : string -> bool;
  readdirSync : string -> list string;
  require : string -> string + list value;
  fn_body : nat -> list value -> option exn;
  class_def : nat -> ClassDef
}.

Definition set_files (fs : list string) (l : Loader) : Loader :=
  mkLoader (options l) (extraArguments l) fs.

Definition set_extraArguments (xs : list value) (l : Loader) : Loader :=
  mkLoader (options l) xs (files l).

Definition set_loaders (ls : list Loader) (w : World) : World :=
  mkWorld ls (listeners w) (instances w).

Definition set_listeners (m : gmap nat (list Listener)) (w : World) : World :=
  mkWorld (loaders w) m (instances w).

Definition set_instances (insts : list Instance) (w : World) : World :=
  mkWorld (loaders w) (listeners w) insts.

(** ** State and output *)

Inductive outcome (A : Type) :=
| Ok (a : A)
| Throw (e : exn).

Arguments Ok {A} a.
Arguments Throw {A} e.

(** A computation over a state [S]: it returns or throws, and either way
    leaves a state and the events it emitted, oldest first. *)
Definition M (S A : Type) : Type := S -> outcome A * S * list event.

Definition ret {S A} (a : A) : M S A := fun s => (Ok a, s, []).

Definition throw {S A} (e : exn) : M S A := fun s => (Throw e, s, []).

Definition bind {S A B} (m : M S A) (k : A -> M S B) : M S B :=
  fun s =>
    match m s with
    | (Ok a, s1, t1) =>
        match k a s1 with
        | (r, s2, t2) => (r, s2, t1 ++ t2)
        end
    | (Throw e, s1, t1) => (Throw e, s1, t1)
    end.

Definition get {S} : M S S := fun s => (Ok s, s, []).

Definition modify {S} (f : S -> S) : M S unit := fun s => (Ok tt, f s, []).

Definition emit_event {S} (e : event) : M S unit := fun s => (Ok tt, s, [e]).

Notation "'let!' x ':=' m 'in' k" := (bind m (fun x => k))
  (at level 10, x name, m at level 100, k at level 200).
Notation "'do!' m 'in' k" := (bind m (fun _ => k))
  (at level 10, m at level 100, k at level 200).

Definition result_of {S A} (r : outcome A * S * list event) : outcome A := fst (fst r).
Definition state_of {S A} (r : outcome A * S * list event) : S := snd (fst r).
Definition trace_of {S A} (r : outcome A * S * list event) : list event := snd r.

Definition raised {A} (o : outcome A) : bool :=
  match o with Ok _ => false | Throw _ => true end.

(** ** The facade: [log], [when], [withExtraArgument] *)

(** The constructor's defaults; [process_cwd] is [process.cwd()]. *)
Definition default_options (process_cwd : string) : Options :=
  mkOptions process_cwd false ["js"; "mjs"] true.

(** The [options] argument of the constructor: each key given or not. *)
Record Overrides := mkOverrides {
  o_cwd : option string;
  o_verbose : option bool;
  o_extensions : option (list string);
  o_withNamespace : option bool
}.

Definition no_overrides : Overrides := mkOverrides None None None None.

(** [{ ...defaults, ...options }] *)
Definition merge_options (defaults : Options) (o : Overrides) : Options :=
  mkOptions (default (cwd defaults) (o_cwd o))
            (default (verbose defaults) (o_verbose o))
            (default (extensions defaults) (o_extensions o))
            (default (withNamespace defaults) (o_withNamespace o)).

(** A facade with the given options and the two lists empty. *)
Definition new_Loader (opts : Options) : Loader := mkLoader opts [] [].

(** [constructor (options = {})] *)
Definition Loader_constructor (process_cwd : string) (o : Overrides) : Loader :=
  new_Loader (merge_options (default_options process_cwd) o).

(** [log (message, type = 'info')] *)
Definition log (message : string) (type : level) : M Loader unit :=
  let! l := get in
  if verbose (options l) then emit_event (ELog type message) else ret tt.

(** The errors the program raises or runs into. *)
Definition null_not_iterable : exn :=
  JsTypeError "object null is not iterable (cannot read property Symbol(Symbol.iterator))".

Definition not_a_constructor : exn :=
  JsTypeError "mod[mod.indexOf(...)] is not a constructor".

Definition not_a_function_export : exn := JsError "module requires an function".

Definition failed_to_require (file message : string) : exn :=
  JsError ("Failed to require " ++ file ++ " because: " ++ message).

Definition not_a_function : exn := JsTypeError "fn is not a function".

Definition no_such_object : exn :=
  JsTypeError "Cannot read properties of undefined".

(** Calling a class as a function; an anonymous class has the empty
    name. *)
Definition class_called_without_new (name : string) : exn :=
  match name with
  | EmptyString => JsTypeError "Class constructors cannot be invoked without 'new'"
  | _ => JsTypeError ("Class constructor " ++ name ++ " cannot be invoked without 'new'")
  end.

(** [instance.connection.bind] where [connection] is no function. *)
Definition bind_of_undefined : exn :=
  JsTypeError "Cannot read properties of undefined (reading 'bind')".

Definition bind_of_null : exn :=
  JsTypeError "Cannot read properties of null (reading 'bind')".

Definition bind_not_a_function : exn :=
  JsTypeError "instance.connection.bind is not a function".

(** [m.bind(instance)] for the member [m] of the instance [r]: the
    bound method, or the error of reading or calling [bind]. *)
Definition bound (r : nat) (m : member) : exn + value :=
  match m with
  | Method _ => inr (VBound r)
  | Undefined => inl bind_of_undefined
  | Null => inl bind_of_null
  | Data => inl bind_not_a_function
  end.

Section Facade.

Context (host : Host).

(** The body of [for (const filename of fs.readdirSync(location))]. *)
Fixpoint when_loop (location : string) (names : list string) : M Loader unit :=
  match names with
  | [] => ret tt
  | filename :: rest =>
      match regex_exec_extension filename with
      | None => throw null_not_iterable
      | Some extension =>
          let! l := get in
          if negb (includes extension (extensions (options l))) then
            do! log ("Ignoring extension: " ++ extension) LInfo in
            when_loop location rest
          else if starts_with_dot filename then
            do! log ("Ignoring hidden entity: " ++ filename) LInfo in
            when_loop location rest
          else
            do! modify (fun l => set_files (files l ++ [path_join host location filename]) l) in
            when_loop location rest
      end
  end.

(** [when (dirname)] *)
Definition when (dirname : string) : M Loader unit :=
  let! l := get in
  let location := path_join host (cwd (options l)) dirname in
  if negb (existsSync host location) then
    log ("Entity not found " ++ location) LError
  else if negb (isDirectory host location) then
    log (location ++ " not is an folder") LError
  else
    when_loop location (readdirSync host location).

(** [withExtraArgument (...extraArgument)] *)
Definition withExtraArgument (extraArgument : list value) : M Loader unit :=
  modify (fun l => set_extraArguments (extraArguments l ++ extraArgument) l).

End Facade.

(** ** The binder and the dispatcher *)

(** Run a method of the facade object behind the reference [this]. *)
Definition on_this {A} (this : nat) (m : M Loader A) : M World A :=
  fun w =>
    match loaders w !! this with
    | None => (Throw no_such_object, w, [])
    | Some l =>
        match m l with
        | (r, l', t) => (r, set_loaders (<[this := l']> (loaders w)) w, t)
        end
    end.

(** [module.exports = (options = {}) => new Loader(options)], giving
    the reference of the new object. *)
Definition create (process_cwd : string) (o : Overrides) : M World nat :=
  fun w =>
    (Ok (length (loaders w)),
     set_loaders (loaders w ++ [Loader_constructor process_cwd o]) w, []).

(** [server.on('connection', cb)] *)
Definition server_on (server : nat) (cb : Listener) : M World unit :=
  modify (fun w =>
    set_listeners (<[server := default [] (listeners w !! server) ++ [cb]]> (listeners w)) w).

Section Binder.

Context (host : Host).

(** [getRelativeTo (location)] *)
Definition getRelativeTo (l : Loader) (location : string) : string :=
  "." ++ default "undefined" (last (js_split (cwd (options l)) location)).

(** [parts[parts.length - 1]] inside the template string of the
    [loaded:] message. *)
Definition loaded_name (l : Loader) (file : string) : string :=
  let parts := drop 1 (js_split (path_sep host) (getRelativeTo l file)) in
  default "undefined" (last parts).

(** [mod[mod.indexOf(i)]] *)
Definition at_index_of (i : value) (exps : list value) : value :=
  default VUndefined (index_of i exps ≫= fun j => exps !! j).

(** [mod[mod.indexOf(i)] = v] *)
Definition assign_index_of (i v : value) (exps : list value) : list value :=
  match index_of i exps with
  | Some j => <[j := v]> exps
  | None => exps
  end.

(** [new C()], giving the reference of the new instance; what the
    constructor throws is thrown from here. *)
Definition construct (c : value) : M World nat :=
  match c with
  | VFunc id _ Ctor =>
      match cd_construct (class_def host id) with
      | inr props =>
          fun w =>
            (Ok (length (instances w)),
             set_instances (instances w ++ [mkInstance id props]) w, [])
      | inl e => throw e
      end
  | _ => throw not_a_constructor
  end.

(** ['connection' in instance] *)
Definition connection_in (r : nat) : M World bool :=
  fun w =>
    match instances w !! r with
    | Some inst => (Ok (bool_decide (is_Some (cd_connection (class_def host (i_class inst))))), w, [])
    | None => (Throw no_such_object, w, [])
    end.

(** [instance.connection.bind(instance)] *)
Definition bind_connection (r : nat) : M World value :=
  fun w =>
    match instances w !! r with
    | Some inst =>
        match cd_connection (class_def host (i_class inst)) with
        | Some m =>
            match bound r m with
            | inr v => (Ok v, w, [])
            | inl e => (Throw e, w, [])
            end
        | None => (Throw bind_of_undefined, w, [])
        end
    | None => (Throw no_such_object, w, [])
    end.

(** The branch taken for a class-shaped export [i] of the array
    [exps] (the source's [mod]): instantiate it, and put the bound
    [connection] method in its place when the instance has the
    property. Nothing here is inside a [try]. *)
Definition instantiate_class (this : nat) (i : value) (exps : list value)
    : M World (list value) :=
  let! instance := construct (at_index_of i exps) in
  let! has := connection_in instance in
  if has then
    let! bound := bind_connection instance in
    ret (assign_index_of i bound exps)
  else
    do! on_this this (log "cannot load route" LError) in
    ret exps.

(** The body of [for (const i of mod)]: the array iterator reads
    [mod[idx]] at each step, from the array as the earlier steps left
    it, and stops past the last slot; [n] counts the steps that remain
    ([into_files] gives [mod.length] of them, which is all there are,
    since the array keeps its length). *)
Fixpoint into_exports (this : nat) (name : string) (n idx : nat)
    (exps fns : list value) : M World (list value) :=
  match n with
  | O => ret fns
  | S n' =>
      match exps !! idx with
      | None => ret fns
      | Some i =>
          if negb (is_function i) then
            throw not_a_function_export
          else
            let! exps' :=
              (if class_shaped (to_string i) then instantiate_class this i exps
               else ret exps) in
            do! on_this this (log ("loaded: " ++ name) LInfo) in
            into_exports this name n' (S idx) exps' (fns ++ exps')
      end
  end.

(** The body of [for (const file of this.files)]. *)
Fixpoint into_files (this : nat) (fs : list string) (fns : list value)
    : M World (list value) :=
  match fs with
  | [] => ret fns
  | file :: rest =>
      let! l := on_this this get in
      let name := loaded_name l file in
      match require host file with
      | inl message => throw (failed_to_require file message)
      | inr exps =>
          let! fns' := into_exports this name (length exps) 0 exps fns in
          into_files this rest fns'
      end
  end.

(** [into (server)] *)
Definition into (this server : nat) : M World unit :=
  let! l := on_this this get in
  let! fns := into_files this (files l) [] in
  server_on server (mkListener this fns).

(** How a call that was entered ends. *)
Definition finish (thrown : option exn) : outcome unit :=
  match thrown with
  | None => Ok tt
  | Some e => Throw e
  end.

(** [fn(...args)] for a value of the handler array: an ordinary function
    is entered, and returns or throws; a bound method is entered with its
    instance as [this], and returns or throws, leaving the properties it
    set; a class is not entered, and neither is a value that is no
    function. *)
Definition invoke (fn : value) (args : list value) : M World unit :=
  match fn with
  | VFunc id _ Plain => fun w => (finish (fn_body host id args), w, [ECall fn args])
  | VFunc id _ Ctor => throw (class_called_without_new (cd_name (class_def host id)))
  | VBound r =>
      fun w =>
        match instances w !! r with
        | Some inst =>
            match cd_connection (class_def host (i_class inst)) with
            | Some (Method body) =>
                (finish (fst (body (i_props inst) args)),
                 set_instances
                   (<[r := mkInstance (i_class inst) (snd (body (i_props inst) args))]>
                      (instances w)) w,
                 [ECall fn args])
            | _ => (Throw not_a_function, w, [])
            end
        | None => (Throw no_such_object, w, [])
        end
  | _ => throw not_a_function
  end.

(** The listener: [for (const fn of fns) fn(server, socket, ...this.extraArguments)]. *)
Fixpoint call_handlers (this server : nat) (socket : value) (fns : list value)
    : M World unit :=
  match fns with
  | [] => ret tt
  | fn :: rest =>
      let! l := on_this this get in
      do! invoke fn (VServer server :: socket :: extraArguments l) in
      call_handlers this server socket rest
  end.

Fixpoint emit_loop (server : nat) (socket : value) (ls : list Listener) : M World unit :=
  match ls with
  | [] => ret tt
  | cb :: rest =>
      do! call_handlers (lst_this cb) server socket (lst_fns cb) in
      emit_loop server socket rest
  end.

(** [server.emit('connection', socket)]: the server fires one connection
    event. *)
Definition emit_connection (server : nat) (socket : value) : M World unit :=
  let! w := get in
  emit_loop server socket (default [] (listeners w !! server)).

(** A caller's script over the public interface. *)
Inductive op :=
| OpWhen (this : nat) (dirname : string)
| OpExtra (this : nat) (extraArgument : list value)
| OpInto (this server : nat)
| OpEmit (server : nat) (socket : value).

Definition run_op (o : op) : M World unit :=
  match o with
  | OpWhen this dirname => on_this this (when host dirname)
  | OpExtra this xs => on_this this (withExtraArgument xs)
  | OpInto this server => into this server
  | OpEmit server socket => emit_connection server socket
  end.

Fixpoint run_ops (os : list op) : M World unit :=
  match os with
  | [] => ret tt
  | o :: rest => do! run_op o in run_ops rest
  end.

End Binder.

Definition empty_world : World := mkWorld [] ∅ [].

(** A world holding one facade object, at reference [0]: what [create]
    leaves when it is the first thing that happens. *)
Definition world_of (l : Loader) : World := mkWorld [l] ∅ [].

(** ** Reference functions for the statements *)

(** The name's last character is a dot. *)
Fixpoint ends_with_dot (s : string) : bool :=
  match s with
  | EmptyString => false
  | String c EmptyString => ascii_eqb c "."
  | String _ rest => ends_with_dot rest
  end.

(** The entries a scan keeps: the text after the last dot is an accepted
    extension and the name is not hidden. *)
Definition accepted (exts : list string) (filename : string) : bool :=
  match regex_exec_extension filename with
  | Some extension => includes extension exts && negb (starts_with_dot filename)
  | None => false
  end.

(** What a scan says about one entry it reads. *)
Definition scan_message (exts : list string) (filename : string) : list event :=
  match regex_exec_extension filename with
  | Some extension =>
      if negb (includes extension exts) then [ELog LInfo ("Ignoring extension: " ++ extension)]
      else if starts_with_dot filename then [ELog LInfo ("Ignoring hidden entity: " ++ filename)]
      else []
  | None => []
  end.

Definition if_verbose (verbose : bool) (t : list event) : list event :=
  if verbose then t else [].

(** A sequence of [withExtraArgument] calls. *)
Fixpoint accumulate (calls : list (list value)) : M Loader unit :=
  match calls with
  | [] => ret tt
  | xs :: rest => do! withExtraArgument xs in accumulate rest
  end.

(** The constructor of class [id] returns. *)
Definition constructs (host : Host) (id : nat) : bool :=
  match cd_construct (class_def host id) with
  | inr _ => true
  | inl _ => false
  end.

(** The [connection] member of the instances of class [id], if they have
    one, is a method. *)
Definition connection_binds (host : Host) (id : nat) : bool :=
  match cd_connection (class_def host id) with
  | Some (Method _) | None => true
  | Some _ => false
  end.

(** An export the binder can take: a function whose text, when it looks
    like a class, is that of a real constructor, which returns, and whose
    instances have a method as their [connection] or no such property. *)
Definition bindable (host : Host) (v : value) : bool :=
  match v with
  | VFunc id src k =>
      implb (class_shaped src)
            (bool_decide (k = Ctor) && constructs host id && connection_binds host id)
  | VBound _ => true
  | _ => false
  end.

(** The file's module loads and every export is [bindable]. *)
Definition module_ok (host : Host) (file : string) : bool :=
  match require host file with
  | inr exps => forallb (bindable host) exps
  | inl _ => false
  end.

(** Called with [args] in a store whose instances are [insts], the
    handler [fn] is entered and returns: it is an ordinary function that
    returns, or the bound method of an instance whose [connection] is a
    method that returns whatever properties it finds. *)
Definition answers (host : Host) (insts : list Instance) (args : list value) (fn : value)
    : Prop :=
  match fn with
  | VFunc id _ Plain => fn_body host id args = None
  | VBound r =>
      exists inst body,
        insts !! r = Some inst /\
        cd_connection (class_def host (i_class inst)) = Some (Method body) /\
        forall props, fst (body props args) = None
  | _ => False
  end.

(** Why binding the export [v] raises, if it does: it is no function,
    its text looks like a class but it is no constructor, its constructor
    throws, or the [connection] of its instance cannot be bound. *)
Definition bind_failure (host : Host) (v : value) : option exn :=
  match v with
  | VFunc id src k =>
      if class_shaped src then
        match k with
        | Plain => Some not_a_constructor
        | Ctor =>
            match cd_construct (class_def host id), cd_connection (class_def host id) with
            | inl e, _ => Some e
            | inr _, Some m =>
                match bound 0 m with
                | inl e => Some e
                | inr _ => None
                end
            | inr _, None => None
            end
        end
      else None
  | VBound _ => None
  | _ => Some not_a_function_export
  end.

(** What calling [fn] with [args] raises, for a handler that raises
    whatever the store holds: an ordinary function that throws (it has
    been entered), a class or a value that is no function (it has not). *)
Definition raises_at (host : Host) (args : list value) (fn : value) : option (exn * bool) :=
  match fn with
  | VFunc id _ Plain =>
      match fn_body host id args with
      | Some e => Some (e, true)
      | None => None
      end
  | VFunc id _ Ctor => Some (class_called_without_new (cd_name (class_def host id)), false)
  | VBound _ => None
  | _ => Some (not_a_function, false)
  end.

(** Called with [args], the value [fn] is an ordinary function that
    returns. *)
Definition returns (host : Host) (args : list value) (fn : value) : bool :=
  match fn with
  | VFunc id _ Plain => bool_decide (fn_body host id args = None)
  | _ => false
  end.

(** A class-shaped constructor whose instances have no [connection]. *)
Definition class_without_connection (host : Host) (v : value) : bool :=
  match v with
  | VFunc id src Ctor =>
      class_shaped src && bool_decide (cd_connection (class_def host id) = None)
  | _ => false
  end.


(** The options with the namespace flag overwritten. *)
Definition set_withNamespace (b : bool) (o : Options) : Options :=
  mkOptions (cwd o) (verbose o) (extensions o) b.

(** The constructor's argument with the [withNamespace] key replaced. *)
Definition set_o_withNamespace (nb : option bool) (o : Overrides) : Overrides :=
  mkOverrides (o_cwd o) (o_verbose o) (o_extensions o) nb.

Definition flag_loader (b : bool) (l : Loader) : Loader :=
  mkLoader (set_withNamespace b (options l)) (extraArguments l) (files l).

Definition flag_world (b : bool) (w : World) : World :=
  set_loaders (flag_loader b <$> loaders w) w.

Definition flagged {S A} (f : S -> S) (r : outcome A * S * list event)
    : outcome A * S * list event :=
  (result_of r, f (state_of r), trace_of r).

(** A computation that cannot tell which value the flag has. *)
Definition blind (b : bool) {A} (m : M World A) : Prop :=
  forall w, m (flag_world b w) = flagged (flag_world b) (m w).

Definition blind_method (b : bool) {A} (m : M Loader A) : Prop :=
  forall l, m (flag_loader b l) = flagged (flag_loader b) (m l).

(** A name the scan keeps, read on its characters: it does not start
    with a dot, and it is an accepted extension with no dot in it, or
    ends with a dot followed by one. *)
Definition kept_name (exts : list string) (name : string) : Prop :=
  starts_with_dot name = false /\
  exists ext : string,
    ext ∈ exts /\ dot_free ext = true /\ ext <> "" /\
    (name = ext \/ exists stem : string, name = (stem ++ "." ++ ext)%string).

(** [sep] stands somewhere in [s]. *)
Fixpoint occurs (sep s : string) : bool :=
  match s with
  | EmptyString => false
  | String _ rest =>
      match strip_prefix sep s with
      | Some _ => true
      | None => occurs sep rest
      end
  end.

(** The facade an operation is called on ([None] for an event of the
    server). *)
Definition op_this (o : op) : option nat :=
  match o with
  | OpWhen this _ | OpExtra this _ | OpInto this _ => Some this
  | OpEmit _ _ => None
  end.

(** How many functions of an export array have a class-shaped text. *)
Definition count_class_shaped (exps : list value) : nat :=
  length (List.filter (fun v => class_shaped (to_string v)) exps).

(** The same count over the modules of a list of files. *)
Fixpoint count_class_shaped_files (host : Host) (fs : list string) : nat :=
  match fs with
  | [] => 0
  | file :: rest =>
      match require host file with
      | inr exps => count_class_shaped exps
      | inl _ => 0
      end + count_class_shaped_files host rest
  end.

(** The lines a verbose bind logs when its loop visits the export [v]
    of the file logged as [name]. *)
Definition export_lines (host : Host) (name : string) (v : value) : list event :=
  (if class_without_connection host v then [ELog LError "cannot load route"] else [])
  ++ [ELog LInfo ("loaded: " ++ name)].

(** The lines a verbose bind logs for one file. *)
Definition file_lines (host : Host) (l : Loader) (file : string) : list event :=
  match require host file with
  | inr exps => concat (map (export_lines host (loaded_name host l file)) exps)
  | inl _ => []
  end.


(** The calls a listener makes for the handlers [fns]. *)
Definition calls_of (server : nat) (socket : value) (extra fns : list value) : list event :=
  map (fun fn => ECall fn (VServer server :: socket :: extra)) fns.

(** ** A sample application *)

Module Sample.

Definition join (a b : string) : string := a ++ "/" ++ b.

Fixpoint assoc {A} (k : string) (kvs : list (string * A)) : option A :=
  match kvs with
  | [] => None
  | (k', v) :: rest => if bool_decide (k = k') then Some v else assoc k rest
  end.

Definition a : value := VFunc 1 "function a (io, socket) {}" Plain.
Definition b : value := VFunc 2 "(io, socket) => {}" Plain.
Definition Chat : value :=
  VFunc 3 "class Chat { connection (io, socket) { this.seen = socket; this.count = (this.count || 0) + 1 } }" Ctor.
Definition Silent : value := VFunc 4 "class Silent { }" Ctor.

(** The body of the [connection] method of [Chat]. *)
Definition chat_body (props : gmap string value) (args : list value)
    : option exn * gmap string value :=
  let count := match props !! "count" with Some (VNum n) => n | _ => 0%Z end in
  (None,
   <["count" := VNum (count + 1)]> (<["seen" := default VUndefined (args !! 1%nat)]> props)).

Definition chat_connection : member := Method chat_body.

Definition classes (id : nat) : ClassDef :=
  if bool_decide (id = 3%nat) then mkClassDef "Chat" (inr ∅) (Some chat_connection)
  else mkClassDef "Silent" (inr ∅) None.

Definition dirs : list (string * list string) :=
  [ ("/app/handlers", ["a.js"; ".hidden.js"; "notes.txt"; "b.mjs"]);
    ("/app/two", ["pair.js"]);
    ("/app/mixed", ["mixed.js"]);
    ("/app/chat", ["chat.js"]);
    ("/app/silent", ["silent.js"]);
    ("/app/broken", ["pair.js"; "broken.js"; "chat.js"]);
    ("/app/dots", ["a.js"; "notes."; "b.js"]) ].

Definition plain_files : list string := ["/app/README.md"].

Definition modules : list (string * (string + list value)) :=
  [ ("/app/handlers/a.js", inr [a]);
    ("/app/handlers/b.mjs", inr [b]);
    ("/app/two/pair.js", inr [a; b]);
    ("/app/mixed/mixed.js", inr [a; Chat]);
    ("/app/chat/chat.js", inr [Chat]);
    ("/app/silent/silent.js", inr [Silent]);
    ("/app/broken/pair.js", inr [a; b]);
    ("/app/broken/broken.js", inl "Unexpected token '}'");
    ("/app/broken/chat.js", inr [Chat]) ].

Definition host : Host :=
  mkHost "/" join
    (fun p => bool_decide (is_Some (assoc p dirs)) || includes p plain_files)
    (fun p => bool_decide (is_Some (assoc p dirs)))
    (fun p => default [] (assoc p dirs))
    (fun p => default (inl ("Cannot find module '" ++ p ++ "'")%string) (assoc p modules))
    (fun _ _ => None)
    classes.

(** The options of a facade made with no argument, and of one made
    with [{ verbose: true }], in a process whose directory is [/app]. *)
Definition quiet : Options := merge_options (default_options "/app") no_overrides.
Definition chatty : Options :=
  merge_options (default_options "/app") (mkOverrides None (Some true) None None).

Definition server : nat := 7%nat.
Definition socket : value := VSocket 1.

End Sample.

(** ** A second application, with the odd modules *)

Module Demo.

Definition ping : value := VFunc 11 "function ping (io, socket) {}" Plain.
Definition pong : value := VFunc 12 "function pong (io, socket) {}" Plain.
Definition Room : value := VFunc 13 "class Room { connection (io, socket) { this.last = socket } }" Ctor.
Definition Mute : value := VFunc 14 "class Mute { }" Ctor.
Definition Anonymous : value := VFunc 15 "class{ connection (io, socket) {} }" Ctor.

(** U+00A0, a no-break space. *)
Definition nbsp : string := String (ascii_of_nat 194) (String (ascii_of_nat 160) "").

(** A class whose text has a no-break space after the keyword. *)
Definition Wide : value :=
  VFunc 16 ("class" ++ nbsp ++ "Wide { connection (io, socket) { this.last = socket } }") Ctor.

(** [class Faulty { constructor () { throw new Error('no database') } connection () {} }] *)
Definition Faulty : value :=
  VFunc 17 "class Faulty { constructor () { throw new Error('no database') } connection () {} }" Ctor.

(** A class whose instances hold a number as [connection]. *)
Definition Port : value :=
  VFunc 18 "class Port { constructor () { this.connection = 8080 } }" Ctor.

Definition crash : value :=
  VFunc 19 "function crash (io, socket) { throw new Error('boom') }" Plain.

Definition room_body (props : gmap string value) (args : list value)
    : option exn * gmap string value :=
  (None, <["last" := default VUndefined (args !! 1%nat)]> props).

Definition room_connection : member := Method room_body.

Definition classes (id : nat) : ClassDef :=
  if bool_decide (id = 13%nat) then mkClassDef "Room" (inr ∅) (Some room_connection)
  else if bool_decide (id = 14%nat) then mkClassDef "Mute" (inr ∅) None
  else if bool_decide (id = 16%nat) then mkClassDef "Wide" (inr ∅) (Some room_connection)
  else if bool_decide (id = 17%nat) then
    mkClassDef "Faulty" (inl (JsError "no database")) (Some room_connection)
  else if bool_decide (id = 18%nat) then
    mkClassDef "Port" (inr {["connection" := VNum 8080]}) (Some Data)
  else mkClassDef "" (inr ∅) (Some room_connection).

(** What the ordinary functions throw: [crash] always does. *)
Definition bodies (id : nat) (args : list value) : option exn :=
  if bool_decide (id = 19%nat) then Some (JsError "boom") else None.

Definition dirs : list (string * list string) :=
  [ ("/srv/app/rooms", ["room.js"; "js"; ".env.js"; "room.d.ts"; "README"]);
    ("/srv/app/games", ["ping.mjs"; "pong.js"]);
    ("/srv/app/odd", ["config.js"; "empty.js"; "anonymous.js"; "stop."; "late.js"]);
    ("/srv/app/wide", ["wide.js"]);
    ("/srv/app/faulty", ["ping.js"; "faulty.js"]);
    ("/srv/app/port", ["port.js"]);
    ("/srv/app/alarm", ["ping.js"; "crash.js"; "pong.js"]) ].

Definition modules : list (string * (string + list value)) :=
  [ ("/srv/app/rooms/room.js", inr [Room; ping; Mute]);
    ("/srv/app/rooms/js", inr [pong]);
    ("/srv/app/games/ping.mjs", inr [ping]);
    ("/srv/app/games/pong.js", inr [pong]);
    ("/srv/app/odd/config.js", inr [ping; VNum 8080; pong]);
    ("/srv/app/odd/empty.js", inr []);
    ("/srv/app/odd/anonymous.js", inr [Anonymous]);
    ("/srv/app/wide/wide.js", inr [Wide]);
    ("/srv/app/faulty/ping.js", inr [ping]);
    ("/srv/app/faulty/faulty.js", inr [Faulty]);
    ("/srv/app/port/port.js", inr [Port]);
    ("/srv/app/alarm/ping.js", inr [ping]);
    ("/srv/app/alarm/crash.js", inr [crash]);
    ("/srv/app/alarm/pong.js", inr [pong]) ].

Definition host : Host :=
  mkHost "/" Sample.join
    (fun p => bool_decide (is_Some (Sample.assoc p dirs)))
    (fun p => bool_decide (is_Some (Sample.assoc p dirs)))
    (fun p => default [] (Sample.assoc p dirs))
    (fun p => default (inl ("Cannot find module '" ++ p ++ "'")%string) (Sample.assoc p modules))
    bodies
    classes.

(** Options with [{ cwd: '/srv/app', verbose: true, extensions: ['js', 'mjs', 'd.ts'] }]. *)
Definition verbose_options : Options :=
  merge_options (default_options "/")
    (mkOverrides (Some "/srv/app") (Some true) (Some ["js"; "mjs"; "d.ts"]) None).

Definition silent_options : Options :=
  merge_options (default_options "/") (mkOverrides (Some "/srv/app") None None None).

End Demo.
Example split_path : js_split "/" "./handlers/chat.js" = ["."; "handlers"; "chat.js"].
Proof. reflexivity. Qed.

Example split_trailing : js_split "/" "a/" = ["a"; ""].
Proof. reflexivity. Qed.

Example split_cwd : js_split "/srv/app" "/srv/app/handlers/chat.js" = [""; "/handlers/chat.js"].
Proof. reflexivity. Qed.

Example exec_js : regex_exec_extension "chat.test.js" = Some "js".
Proof. reflexivity. Qed.

Example exec_dotless : regex_exec_extension "Makefile" = Some "Makefile".
Proof. reflexivity. Qed.

Example exec_trailing_dot : regex_exec_extension "notes." = None.
Proof. reflexivity. Qed.

Example class_shaped_yes : class_shaped "class Chat { connection () {} }" = true.
Proof. reflexivity. Qed.

Example class_shaped_no : class_shaped "function chat (io, socket) {}" = false.
Proof. reflexivity. Qed.

Example create_first process_cwd o :
  create process_cwd o empty_world = (Ok 0, world_of (Loader_constructor process_cwd o), []).
Proof. reflexivity. Qed.

Example class_shaped_anonymous : class_shaped "class{ connection () {} }" = false.
Proof. reflexivity. Qed.

Example class_shaped_no_break_space : class_shaped (to_string Demo.Wide) = true.
Proof. reflexivity. Qed.

Example class_shaped_line_separator :
  class_shaped (String (ascii_of_nat 226) (String (ascii_of_nat 128) (String (ascii_of_nat 168)
                  ("class" ++ String (ascii_of_nat 227) (String (ascii_of_nat 128)
                     (String (ascii_of_nat 128) "Chat {}")))))) = true.
Proof. reflexivity. Qed.

Example class_shaped_other_two_bytes :
  class_shaped ("class" ++ String (ascii_of_nat 195) (String (ascii_of_nat 160) "Chat {}")) = false.
Proof. reflexivity. Qed.

Example anonymous_class_called :
  class_called_without_new "" =
  JsTypeError "Class constructors cannot be invoked without 'new'".
Proof. reflexivity. Qed.

(** ** The monad *)

Lemma bind_Ok {S A B} (m : M S A) (k : A -> M S B) s a s1 t1 :
  m s = (Ok a, s1, t1) ->
  bind m k s = (result_of (k a s1), state_of (k a s1), t1 ++ trace_of (k a s1)).
Proof.
  intros H. unfold bind. rewrite H. destruct (k a s1) as [[r s2] t2]. reflexivity.
Qed.

Lemma bind_Throw {S A B} (m : M S A) (k : A -> M S B) s e s1 t1 :
  m s = (Throw e, s1, t1) -> bind m k s = (Throw e, s1, t1).
Proof. intros H. unfold bind. rewrite H. reflexivity. Qed.

Lemma bind_assoc {S A B C} (m : M S A) (k : A -> M S B) (k' : B -> M S C) s :
  bind (bind m k) k' s = bind m (fun x => bind (k x) k') s.
Proof.
  unfold bind. destruct (m s) as [[[x|e] s1] t1]; [|reflexivity].
  destruct (k x s1) as [[[y|e] s2] t2]; [|reflexivity].
  destruct (k' y s2) as [[r s3] t3]. rewrite app_assoc. reflexivity.
Qed.

Lemma bind_ext_on {S A B} (m : M S A) (k k' : A -> M S B) s :
  (forall a s1 t1, m s = (Ok a, s1, t1) -> k a s1 = k' a s1) ->
  bind m k s = bind m k' s.
Proof.
  intros H. unfold bind. destruct (m s) as [[[a|e] s1] t1]; [|reflexivity].
  rewrite (H a s1 t1 eq_refl). reflexivity.
Qed.

Lemma log_eq message type l :
  log message type l = (Ok tt, l, if_verbose (verbose (options l)) [ELog type message]).
Proof. unfold log, bind, get, if_verbose. destruct (verbose (options l)); reflexivity. Qed.

(** ** Extension extraction *)

Lemma ends_with_dot_not_dot_free s : ends_with_dot s = true -> dot_free s = false.
Proof.
  induction s as [|c s IH]; [discriminate|].
  destruct s as [|c' s'].
  - simpl. intros ->. reflexivity.
  - intros H. change (dot_free (String c (String c' s'))) with
      (negb (ascii_eqb c ".") && dot_free (String c' s')).
    rewrite IH by exact H. apply andb_false_r.
Qed.

Lemma regex_exec_extension_trailing_dot s :
  ends_with_dot s = true -> regex_exec_extension s = None.
Proof.
  induction s as [|c s IH]; [reflexivity|].
  intros H. cbn [regex_exec_extension].
  rewrite (ends_with_dot_not_dot_free _ H).
  destruct s as [|c' s']; [reflexivity|]. apply IH. exact H.
Qed.

Lemma regex_exec_extension_None s :
  regex_exec_extension s = None <-> s = "" \/ ends_with_dot s = true.
Proof.
  split.
  - induction s as [|c s IH]; [left; reflexivity|].
    cbn [regex_exec_extension]. destruct (dot_free (String c s)) eqn:D; [discriminate|].
    intros H. right. destruct (IH H) as [->|E].
    + simpl in D. rewrite andb_true_r in D. simpl. now apply negb_false_iff in D.
    + destruct s; [discriminate|]. exact E.
  - intros [->|H]; [reflexivity|]. now apply regex_exec_extension_trailing_dot.
Qed.

(** The extracted extension holds no dot and is a suffix of the name: it
    is the text after the last dot (the whole name when there is none). *)
Lemma regex_exec_extension_Some s e :
  regex_exec_extension s = Some e ->
  dot_free e = true /\ e <> "" /\
  exists p : string, s = (p ++ e)%string /\ (p = "" \/ ends_with_dot p = true).
Proof.
  revert e. induction s as [|c s IH]; [discriminate|].
  intros e. cbn [regex_exec_extension]. destruct (dot_free (String c s)) eqn:D.
  - intros [= <-]. split; [exact D|]. split; [discriminate|]. exists "". auto.
  - intros H. destruct (IH _ H) as (De & Ne & p & -> & Hp). split; [exact De|].
    split; [exact Ne|]. exists (String c p). split; [reflexivity|]. right.
    destruct Hp as [->|Hp].
    + change (String.append "" e) with e in D. simpl in D.
      rewrite De, andb_true_r in D. simpl. now apply negb_false_iff in D.
    + destruct p; [discriminate|]. exact Hp.
Qed.

(** ** The directory scan *)

Section Scan.

Context (host : Host).

Lemma set_files_set_files a b l : set_files a (set_files b l) = set_files a l.
Proof. reflexivity. Qed.

Lemma set_files_id l : set_files (files l) l = l.
Proof. destruct l; reflexivity. Qed.

Lemma when_loop_cons location filename rest l :
  when_loop host location (filename :: rest) l =
  match regex_exec_extension filename with
  | None => (Throw null_not_iterable, l, [])
  | Some _ =>
      let l' := if accepted (extensions (options l)) filename
                then set_files (files l ++ [path_join host location filename]) l else l in
      let r := when_loop host location rest l' in
      (result_of r, state_of r,
       if_verbose (verbose (options l)) (scan_message (extensions (options l)) filename) ++ trace_of r)
  end.
Proof.
  cbn [when_loop]. unfold accepted, scan_message.
  destruct (regex_exec_extension filename) as [extension|]; [|reflexivity].
  unfold bind at 1, get.
  destruct (includes extension (extensions (options l))); cbn [negb andb].
  - destruct (starts_with_dot filename); cbn [negb].
    + unfold bind. rewrite log_eq.
      destruct (when_loop host location rest l) as [[r s] t]. reflexivity.
    + unfold bind, modify.
      destruct (when_loop host location rest _) as [[r s] t].
      unfold if_verbose. destruct (verbose (options l)); reflexivity.
  - unfold bind. rewrite log_eq.
    destruct (when_loop host location rest l) as [[r s] t]. reflexivity.
Qed.

(** A listing whose every entry has an extension is filtered. *)
Lemma when_loop_accepts location names : forall l,
  Forall (fun n => regex_exec_extension n <> None) names ->
  when_loop host location names l =
  (Ok tt,
   set_files (files l ++ map (path_join host location)
                             (List.filter (accepted (extensions (options l))) names)) l,
   if_verbose (verbose (options l)) (concat (map (scan_message (extensions (options l))) names))).
Proof.
  induction names as [|n names IH]; intros l Hall.
  - cbn. rewrite app_nil_r, set_files_id. unfold if_verbose. destruct (verbose _); reflexivity.
  - inversion Hall as [|? ? Hn Hrest]; subst. rewrite when_loop_cons.
    destruct (regex_exec_extension n) eqn:E; [|congruence]. cbn zeta.
    cbn [List.filter map concat].
    destruct (accepted (extensions (options l)) n) eqn:Acc.
    + rewrite (IH _ Hrest). cbn [result_of state_of trace_of fst snd options set_files files].
      rewrite set_files_set_files. cbn [map]. rewrite <- app_assoc. cbn [app].
      f_equal. unfold if_verbose. destruct (verbose (options l)); reflexivity.
    + rewrite (IH _ Hrest). cbn [result_of state_of trace_of fst snd].
      f_equal. unfold if_verbose. destruct (verbose (options l)); reflexivity.
Qed.

(** The scan raises as soon as the listing holds an entry without an
    extension, whatever comes before it. *)
Lemma when_loop_raises location names : forall l,
  Exists (fun n => regex_exec_extension n = None) names ->
  result_of (when_loop host location names l) = Throw null_not_iterable.
Proof.
  induction names as [|n names IH]; intros l Hex.
  - inversion Hex.
  - rewrite when_loop_cons. destruct (regex_exec_extension n) eqn:E; [|reflexivity].
    cbn zeta. cbn [result_of fst]. apply IH.
    inversion Hex; subst; [congruence|assumption].
Qed.

Lemma when_eq dirname l :
  let location := path_join host (cwd (options l)) dirname in
  when host dirname l =
  if negb (existsSync host location) then
    (Ok tt, l, if_verbose (verbose (options l)) [ELog LError ("Entity not found " ++ location)])
  else if negb (isDirectory host location) then
    (Ok tt, l, if_verbose (verbose (options l)) [ELog LError (location ++ " not is an folder")])
  else when_loop host location (readdirSync host location) l.
Proof.
  cbn zeta. unfold when. unfold bind at 1, get.
  destruct (existsSync host _); cbn [negb].
  - destruct (isDirectory host _); cbn [negb].
    + destruct (when_loop _ _ _ _) as [[r s] t]. reflexivity.
    + rewrite log_eq. reflexivity.
  - rewrite log_eq. reflexivity.
Qed.

(** Scanning a directory whose every entry has an extension appends the
    accepted, non-hidden entries, in listing order. *)
Lemma when_appends_accepted dirname l :
  let location := path_join host (cwd (options l)) dirname in
  existsSync host location = true ->
  isDirectory host location = true ->
  Forall (fun n => regex_exec_extension n <> None) (readdirSync host location) ->
  result_of (when host dirname l) = Ok tt /\
  files (state_of (when host dirname l)) =
    files l ++ map (path_join host location)
                   (List.filter (accepted (extensions (options l))) (readdirSync host location)).
Proof.
  cbn zeta. intros Hex Hdir Hall. rewrite when_eq. cbn zeta.
  rewrite Hex, Hdir. cbn [negb]. rewrite (when_loop_accepts _ _ _ Hall).
  split; reflexivity.
Qed.

End Scan.

(** ** Methods through the reference [this] *)

Lemma set_loaders_insert_id w this l :
  loaders w !! this = Some l -> set_loaders (<[this := l]> (loaders w)) w = w.
Proof. intros H. rewrite (list_insert_id _ _ _ H). destruct w; reflexivity. Qed.

Lemma on_this_eq {A} this (m : M Loader A) w l :
  loaders w !! this = Some l ->
  on_this this m w =
  (result_of (m l), set_loaders (<[this := state_of (m l)]> (loaders w)) w, trace_of (m l)).
Proof. intros H. unfold on_this. rewrite H. destruct (m l) as [[r s] t]. reflexivity. Qed.

Lemma on_this_get this w l :
  loaders w !! this = Some l -> on_this this get w = (Ok l, w, []).
Proof.
  intros H. rewrite (on_this_eq _ _ _ _ H). cbn. now rewrite set_loaders_insert_id.
Qed.

Lemma on_this_log this message type w l :
  loaders w !! this = Some l ->
  on_this this (log message type) w = (Ok tt, w, if_verbose (verbose (options l)) [ELog type message]).
Proof.
  intros H. rewrite (on_this_eq _ _ _ _ H), log_eq. cbn. now rewrite set_loaders_insert_id.
Qed.

(** ** Normalising the exports of one module *)

Lemma index_of_lookup v (arr : list value) : forall idx,
  arr !! idx = Some v ->
  exists j, index_of v arr = Some j /\ arr !! j = Some v /\ j <= idx.
Proof.
  induction arr as [|x arr IH]; intros idx H; [destruct idx; discriminate|].
  cbn [index_of]. destruct (decide (x = v)) as [->|Hne].
  - exists 0. split; [reflexivity|]. split; [reflexivity|lia].
  - destruct idx as [|idx]; [cbn in H; congruence|].
    destruct (IH idx H) as (j & Hj & Hl & Hle). exists (S j).
    rewrite Hj. split; [reflexivity|]. split; [exact Hl|lia].
Qed.

Lemma at_index_of_lookup v (arr : list value) idx :
  arr !! idx = Some v -> at_index_of v arr = v.
Proof.
  intros H. destruct (index_of_lookup _ _ _ H) as (j & Hj & Hl & _).
  unfold at_index_of. rewrite Hj. cbn. rewrite Hl. reflexivity.
Qed.

Lemma length_assign_index_of i v (arr : list value) :
  length (assign_index_of i v arr) = length arr.
Proof. unfold assign_index_of. destruct (index_of i arr); [apply length_insert|reflexivity]. Qed.

(** Assigning at [indexOf(i)] only touches a slot that held [i]. *)
Lemma assign_index_of_other i v (arr : list value) p x :
  arr !! p = Some x -> x <> i -> assign_index_of i v arr !! p = Some x.
Proof.
  intros Hp Hne. unfold assign_index_of. destruct (index_of i arr) as [j|] eqn:Hj; [|exact Hp].
  destruct (decide (j = p)) as [->|Hjp].
  - exfalso. apply Hne.
    assert (exists q, arr !! q = Some i) as [q Hq].
    { clear -Hj. revert p Hj. induction arr as [|y arr IH]; intros p Hj; [discriminate|].
      cbn [index_of] in Hj. destruct (decide (y = i)) as [->|?]; [exists 0; reflexivity|].
      destruct (index_of i arr) as [k|] eqn:Hk; [|discriminate].
      destruct (IH k eq_refl) as [q Hq]. exists (S q). exact Hq. }
    destruct (index_of_lookup _ _ _ Hq) as (j' & Hj' & Hl & _).
    rewrite Hj in Hj'. injection Hj' as <-. congruence.
  - rewrite list_lookup_insert_ne by exact Hjp. exact Hp.
Qed.

Lemma forallb_bindable_assign host i r (arr : list value) :
  forallb (bindable host) arr = true ->
  forallb (bindable host) (assign_index_of i (VBound r) arr) = true.
Proof.
  intros H. unfold assign_index_of. destruct (index_of i arr) as [j|]; [|exact H].
  rewrite forallb_forall in *. intros x Hx. apply list_elem_of_In in Hx.
  apply list_elem_of_lookup in Hx as [k Hk].
  destruct (decide (j = k)) as [->|Hne].
  - destruct (decide (k < length arr)) as [Hlt|Hge].
    + rewrite list_lookup_insert_eq in Hk by exact Hlt. injection Hk as <-. reflexivity.
    + rewrite list_insert_ge in Hk by lia. apply H, list_elem_of_In, list_elem_of_lookup. eauto.
  - rewrite list_lookup_insert_ne in Hk by exact Hne.
    apply H, list_elem_of_In, list_elem_of_lookup. eauto.
Qed.

Section Normalise.

Context (host : Host).

(** What instantiating the export at slot [idx] does. *)
Lemma instantiate_class_eq this i exps idx w l :
  loaders w !! this = Some l ->
  exps !! idx = Some i ->
  instantiate_class host this i exps w =
  match i with
  | VFunc id _ Ctor =>
      match cd_construct (class_def host id) with
      | inl e => (Throw e, w, [])
      | inr props =>
          let w1 := set_instances (instances w ++ [mkInstance id props]) w in
          match cd_connection (class_def host id) with
          | Some m =>
              match bound (length (instances w)) m with
              | inr v => (Ok (assign_index_of i v exps), w1, [])
              | inl e => (Throw e, w1, [])
              end
          | None =>
              (Ok exps, w1, if_verbose (verbose (options l)) [ELog LError "cannot load route"])
          end
      end
  | _ => (Throw not_a_constructor, w, [])
  end.
Proof.
  intros Hl Hi. unfold instantiate_class. rewrite (at_index_of_lookup _ _ _ Hi).
  destruct i as [| | | | |id src [|]|]; try reflexivity.
  unfold bind at 1. cbn [construct].
  destruct (cd_construct (class_def host id)) as [e|props]; [reflexivity|].
  unfold bind at 1, connection_in.
  cbn [instances set_instances].
  rewrite lookup_app_r by lia. rewrite Nat.sub_diag. cbn [lookup list_lookup i_class].
  destruct (cd_connection (class_def host id)) as [m|] eqn:Hc.
  - rewrite bool_decide_true by eauto. unfold bind, bind_connection.
    cbn [instances set_instances].
    rewrite lookup_app_r by lia. rewrite Nat.sub_diag. cbn [lookup list_lookup i_class].
    rewrite Hc. destruct (bound (length (instances w)) m); reflexivity.
  - rewrite bool_decide_false by (intros [? ?]; discriminate).
    unfold bind. rewrite (on_this_log this _ _ _ l) by exact Hl.
    unfold ret. cbn [app]. rewrite app_nil_r. reflexivity.
Qed.

(** What [bindable] says of a class-shaped export. *)
Lemma bindable_class id src k :
  bindable host (VFunc id src k) = true ->
  class_shaped src = true ->
  k = Ctor /\
  (exists props, cd_construct (class_def host id) = inr props) /\
  (cd_connection (class_def host id) = None \/
   exists body, cd_connection (class_def host id) = Some (Method body)).
Proof.
  cbn [bindable]. intros H Hcs. rewrite Hcs in H. cbn [implb] in H.
  apply andb_true_iff in H as [H Hb]. apply andb_true_iff in H as [Hk Hc].
  apply bool_decide_eq_true in Hk. split; [exact Hk|]. split.
  - unfold constructs in Hc. destruct (cd_construct (class_def host id)) as [e|props];
      [discriminate|eauto].
  - unfold connection_binds in Hb.
    destruct (cd_connection (class_def host id)) as [[body| | |]|]; try discriminate; eauto.
Qed.

End Normalise.

Section Exports.

Context (host : Host).

(** One turn of the loop over a module's exports, by the shape of the
    export it reads. *)
Lemma into_exports_S this name n idx exps fns w l i :
  loaders w !! this = Some l ->
  exps !! idx = Some i ->
  let v := verbose (options l) in
  let loaded := if_verbose v [ELog LInfo ("loaded: " ++ name)] in
  let continue exps' w' before :=
    let r := into_exports host this name n (S idx) exps' (fns ++ exps') w' in
    (result_of r, state_of r, before ++ loaded ++ trace_of r) in
  into_exports host this name (S n) idx exps fns w =
  match i with
  | VFunc id src k =>
      if class_shaped src then
        match k with
        | Ctor =>
            match cd_construct (class_def host id) with
            | inl e => (Throw e, w, [])
            | inr props =>
                let w1 := set_instances (instances w ++ [mkInstance id props]) w in
                match cd_connection (class_def host id) with
                | Some m =>
                    match bound (length (instances w)) m with
                    | inr b => continue (assign_index_of i b exps) w1 []
                    | inl e => (Throw e, w1, [])
                    end
                | None => continue exps w1 (if_verbose v [ELog LError "cannot load route"])
                end
            end
        | Plain => (Throw not_a_constructor, w, [])
        end
      else continue exps w []
  | VBound _ => continue exps w []
  | _ => (Throw not_a_function_export, w, [])
  end.
Proof.
  intros Hl Hi. cbn zeta. cbn [into_exports]. rewrite Hi.
  assert (Hcont : forall exps' w' before,
    loaders w' = loaders w ->
    (let (p, t2) :=
       (do! on_this this (log ("loaded: " ++ name) LInfo) in
        into_exports host this name n (S idx) exps' (fns ++ exps')) w' in
     let (r0, s2) := p in (r0, s2, before ++ t2)) =
    (result_of (into_exports host this name n (S idx) exps' (fns ++ exps') w'),
     state_of (into_exports host this name n (S idx) exps' (fns ++ exps') w'),
     before ++ if_verbose (verbose (options l)) [ELog LInfo ("loaded: " ++ name)] ++
     trace_of (into_exports host this name n (S idx) exps' (fns ++ exps') w'))).
  { intros exps' w' before Hw. unfold bind.
    rewrite (on_this_log this _ _ w' l) by (rewrite Hw; exact Hl).
    destruct (into_exports host this name n (S idx) exps' (fns ++ exps') w') as [[r s] t].
    reflexivity. }
  destruct i as [| | | | |id src k|r]; try reflexivity.
  - cbn [is_function negb to_string]. unfold bind at 1.
    destruct (class_shaped src).
    + rewrite (instantiate_class_eq host this _ _ idx w l Hl Hi).
      destruct k; [reflexivity|].
      destruct (cd_construct (class_def host id)) as [e|props]; [reflexivity|]. cbn zeta.
      destruct (cd_connection (class_def host id)) as [m|]; [|apply Hcont; reflexivity].
      destruct (bound (length (instances w)) m); [reflexivity|apply Hcont; reflexivity].
    + unfold ret at 1. apply (Hcont exps w []). reflexivity.
  - cbn [is_function negb to_string]. unfold bind at 1.
    change (class_shaped "function () { [native code] }") with false. cbn iota.
    unfold ret at 1. apply (Hcont exps w []). reflexivity.
Qed.

Lemma into_exports_end this name n idx exps fns w :
  exps !! idx = None ->
  into_exports host this name n idx exps fns w = (Ok fns, w, []).
Proof. intros H. destruct n; cbn [into_exports]; [|rewrite H]; reflexivity. Qed.

(** The loop over the exports leaves the facade objects and the
    listeners alone, only adds instances, and emits only log lines, none
    of them when [verbose] is off. *)
Lemma into_exports_frame this name l n : forall idx exps fns w,
  loaders w !! this = Some l ->
  let r := into_exports host this name n idx exps fns w in
  loaders (state_of r) = loaders w /\
  listeners (state_of r) = listeners w /\
  (exists more, instances (state_of r) = instances w ++ more) /\
  Forall (fun e => is_log e = true) (trace_of r) /\
  (verbose (options l) = false -> trace_of r = []).
Proof.
  assert (Hbase : forall (r : outcome (list value)) w more,
    loaders (set_instances (instances w ++ more) w) = loaders w /\
    listeners (set_instances (instances w ++ more) w) = listeners w /\
    (exists more', instances (set_instances (instances w ++ more) w) = instances w ++ more') /\
    Forall (fun e => is_log e = true) (@nil event) /\
    (verbose (options l) = false -> @nil event = [])).
  { intros. repeat split; try constructor. eexists. reflexivity. }
  assert (Hsame : forall w, set_instances (instances w ++ []) w = w).
  { intros [? ? ?]. unfold set_instances. cbn. now rewrite app_nil_r. }
  induction n as [|n IH]; intros idx exps fns w Hl; cbn zeta.
  - pose proof (Hbase (Ok fns) w []) as Hb. rewrite Hsame in Hb. apply Hb.
  - destruct (exps !! idx) as [i|] eqn:Hi;
      [|rewrite into_exports_end by exact Hi;
        pose proof (Hbase (Ok fns) w []) as Hb; rewrite Hsame in Hb; apply Hb].
    rewrite (into_exports_S this name n idx exps fns w l i Hl Hi). cbn zeta.
    assert (Hstep : forall exps' w' before,
      loaders w' = loaders w -> listeners w' = listeners w ->
      (exists more, instances w' = instances w ++ more) ->
      Forall (fun e => is_log e = true) before ->
      (verbose (options l) = false -> before = []) ->
      let r := into_exports host this name n (S idx) exps' (fns ++ exps') w' in
      let r' := (result_of r, state_of r,
                 before ++ if_verbose (verbose (options l)) [ELog LInfo ("loaded: " ++ name)] ++
                 trace_of r) in
      loaders (state_of r') = loaders w /\ listeners (state_of r') = listeners w /\
      (exists more, instances (state_of r') = instances w ++ more) /\
      Forall (fun e => is_log e = true) (trace_of r') /\
      (verbose (options l) = false -> trace_of r' = [])).
    { intros exps' w' before HL HS [more Hmore] Hb Hq. cbn zeta.
      assert (Hl' : loaders w' !! this = Some l) by (rewrite HL; exact Hl).
      destruct (IH (S idx) exps' (fns ++ exps') w' Hl') as (A & B & [more' C] & D & E).
      cbn [state_of trace_of fst snd].
      split; [congruence|]. split; [congruence|].
      split; [exists (more ++ more'); rewrite C, Hmore, app_assoc; reflexivity|].
      split.
      - apply Forall_app. split; [exact Hb|]. apply Forall_app. split; [|exact D].
        unfold if_verbose. destruct (verbose (options l)); repeat constructor.
      - intros Hv. rewrite (Hq Hv), (E Hv), Hv. reflexivity. }
    pose proof (Hbase (Throw not_a_function_export) w []) as Hthrow.
    rewrite Hsame in Hthrow.
    destruct i as [| | | | |id src k|r]; try apply Hthrow.
    + destruct (class_shaped src).
      * destruct k; [apply Hthrow|].
        destruct (cd_construct (class_def host id)) as [e|props]; [apply Hthrow|].
        destruct (cd_connection (class_def host id)) as [m|].
        -- destruct (bound (length (instances w)) m) as [e|b];
             [apply (Hbase (Throw e) w [mkInstance id props])|].
           apply Hstep; try reflexivity; try constructor. eexists; reflexivity.
        -- apply Hstep; try reflexivity.
           ++ eexists; reflexivity.
           ++ unfold if_verbose. destruct (verbose (options l)); repeat constructor.
           ++ intros ->. reflexivity.
      * apply Hstep; try reflexivity; try constructor. exists []. now rewrite app_nil_r.
    + apply Hstep; try reflexivity; try constructor. exists []. now rewrite app_nil_r.
Qed.

(** Bindable exports never make the loop raise. *)
Lemma into_exports_ok this name l n : forall idx exps fns w,
  loaders w !! this = Some l ->
  forallb (bindable host) exps = true ->
  exists fns', result_of (into_exports host this name n idx exps fns w) = Ok fns'.
Proof.
  induction n as [|n IH]; intros idx exps fns w Hl Hb; [eexists; reflexivity|].
  destruct (exps !! idx) as [i|] eqn:Hi;
    [|rewrite into_exports_end by exact Hi; eexists; reflexivity].
  rewrite (into_exports_S this name n idx exps fns w l i Hl Hi). cbn zeta.
  assert (Hi' : bindable host i = true).
  { rewrite forallb_forall in Hb. apply Hb, list_elem_of_In, list_elem_of_lookup. eauto. }
  destruct i as [| | | | |id src k|r]; try discriminate.
  - destruct (class_shaped src) eqn:Hcs.
    + destruct (bindable_class host _ _ _ Hi' Hcs) as (-> & [props ->] & [->|[body ->]]).
      * cbn [result_of fst]. apply IH; [exact Hl|exact Hb].
      * cbn [bound result_of fst]. apply IH; [exact Hl|]. now apply forallb_bindable_assign.
    + cbn [result_of fst]. apply IH; [exact Hl|exact Hb].
  - cbn [result_of fst]. apply IH; [exact Hl|exact Hb].
Qed.

(** The loop needs no more turns than the array has slots left: the
    array keeps its length, so [length exps] turns from slot [0] visit
    every export and a further turn would find none. *)
Lemma into_exports_turns this name n : forall idx exps fns w,
  length exps <= idx + n ->
  into_exports host this name (S n) idx exps fns w =
  into_exports host this name n idx exps fns w.
Proof.
  induction n as [|n IH]; intros idx exps fns w Hlen.
  - rewrite !into_exports_end; [reflexivity| |]; apply lookup_ge_None_2; lia.
  - change (into_exports host this name (S (S n)) idx exps fns w) with
      (match exps !! idx with
       | None => ret fns
       | Some i =>
           if negb (is_function i) then throw not_a_function_export
           else
             let! exps' :=
               (if class_shaped (to_string i) then instantiate_class host this i exps
                else ret exps) in
             do! on_this this (log ("loaded: " ++ name) LInfo) in
             into_exports host this name (S n) (S idx) exps' (fns ++ exps')
       end w).
    cbn [into_exports]. destruct (exps !! idx) as [i|]; [|reflexivity].
    destruct (negb (is_function i)); [reflexivity|].
    assert (Hkeep : forall e' w' t,
      (if class_shaped (to_string i) then instantiate_class host this i exps else ret exps) w
        = (Ok e', w', t) -> length e' = length exps).
    { intros e' w' t. destruct (class_shaped (to_string i)).
      - unfold instantiate_class, bind, ret.
        destruct (construct host (at_index_of i exps) w) as [[[r|e] w1] t1]; [|discriminate].
        destruct (connection_in host r w1) as [[[[|]|e] w2] t2]; [| |discriminate].
        + destruct (bind_connection host r w2) as [[[b|e] w3] t3]; [|discriminate].
          intros [= <- _ _]. apply length_assign_index_of.
        + destruct (on_this this (log "cannot load route" LError) w2) as [[[[]|e] w3] t3];
            [|discriminate]. intros [= <- _ _]. reflexivity.
      - intros [= <- _ _]. reflexivity. }
    apply bind_ext_on. intros e' w' t E. pose proof (Hkeep e' w' t E) as Hl'.
    apply bind_ext_on. intros [] w2 t2 _. apply IH. lia.
Qed.

End Exports.

Section ExportShapes.

Context (host : Host).


(** With [verbose] on, an export that is a class without [connection]
    gets its error line when the loop reaches it. *)
Lemma into_exports_logs_missing_connection this name l n : forall idx exps fns w p v,
  loaders w !! this = Some l ->
  verbose (options l) = true ->
  forallb (bindable host) exps = true ->
  exps !! p = Some v ->
  idx <= p < idx + n ->
  class_without_connection host v = true ->
  ELog LError "cannot load route" ∈ trace_of (into_exports host this name n idx exps fns w).
Proof.
  induction n as [|n IH]; intros idx exps fns w p v Hl Hv Hb Hp Hrange Hc; [lia|].
  destruct (lookup_lt_is_Some_2 exps idx) as [i Hi].
  { apply lookup_lt_Some in Hp. lia. }
  rewrite (into_exports_S host this name n idx exps fns w l i Hl Hi). cbn zeta.
  assert (Hi' : bindable host i = true).
  { rewrite forallb_forall in Hb. apply Hb, list_elem_of_In, list_elem_of_lookup. eauto. }
  destruct (decide (p = idx)) as [->|Hne].
  - assert (i = v) as -> by congruence.
    destruct v as [| | | | |id src [|]|r]; try discriminate.
    cbn [class_without_connection] in Hc. apply andb_true_iff in Hc as [Hs Hn].
    apply bool_decide_eq_true in Hn.
    destruct (bindable_class host _ _ _ Hi' Hs) as (_ & [props Hprops] & _).
    rewrite Hs, Hprops, Hn, Hv.
    cbn [trace_of snd if_verbose]. apply list_elem_of_here.
  - assert (Hrec : forall exps' w' before,
      loaders w' = loaders w -> forallb (bindable host) exps' = true -> exps' !! p = Some v ->
      ELog LError "cannot load route" ∈
        trace_of (result_of (into_exports host this name n (S idx) exps' (fns ++ exps') w'),
                  state_of (into_exports host this name n (S idx) exps' (fns ++ exps') w'),
                  before ++ if_verbose (verbose (options l)) [ELog LInfo ("loaded: " ++ name)] ++
                  trace_of (into_exports host this name n (S idx) exps' (fns ++ exps') w'))).
    { intros exps' w' before HL Hb' Hp'. cbn [trace_of snd].
      rewrite !elem_of_app. right. right.
      apply (IH (S idx) exps' (fns ++ exps') w' p v); try assumption; [|lia].
      rewrite HL. exact Hl. }
    destruct i as [| | | | |id src k|r]; try discriminate.
    + destruct (class_shaped src) eqn:Hs.
      * destruct (bindable_class host _ _ _ Hi' Hs) as (-> & [props ->] & [Hcd|[body Hcd]]);
          rewrite Hcd.
        -- apply Hrec; [reflexivity|exact Hb|exact Hp].
        -- cbn [bound]. apply Hrec; [reflexivity|now apply forallb_bindable_assign|].
           apply assign_index_of_other; [exact Hp|]. intros ->.
           cbn [class_without_connection] in Hc. rewrite Hs, Hcd in Hc. discriminate.
      * apply Hrec; [reflexivity|exact Hb|exact Hp].
    + apply Hrec; [reflexivity|exact Hb|exact Hp].
Qed.

End ExportShapes.

(** ** Binding *)

Section Bind.

Context (host : Host).

Lemma into_files_cons this file rest fns w l :
  loaders w !! this = Some l ->
  into_files host this (file :: rest) fns w =
  match require host file with
  | inl message => (Throw (failed_to_require file message), w, [])
  | inr exps =>
      let r0 := into_exports host this (loaded_name host l file) (length exps) 0 exps fns w in
      match result_of r0 with
      | Ok fns' =>
          let r := into_files host this rest fns' (state_of r0) in
          (result_of r, state_of r, trace_of r0 ++ trace_of r)
      | Throw e => (Throw e, state_of r0, trace_of r0)
      end
  end.
Proof.
  intros Hl. cbn [into_files]. unfold bind at 1. rewrite (on_this_get _ _ _ Hl).
  destruct (require host file) as [message|exps]; [reflexivity|].
  cbn zeta. unfold bind.
  destruct (into_exports _ _ _ _ _ _ _ _) as [[[fns'|e] s] t]; cbn [result_of state_of trace_of fst snd app].
  - destruct (into_files host this rest fns' s) as [[r' s'] t']. reflexivity.
  - reflexivity.
Qed.

(** Loading and normalising the files leaves the facade objects and the
    listeners alone and emits only log lines. *)
Lemma into_files_frame this l fs : forall fns w,
  loaders w !! this = Some l ->
  let r := into_files host this fs fns w in
  loaders (state_of r) = loaders w /\
  listeners (state_of r) = listeners w /\
  (exists more, instances (state_of r) = instances w ++ more) /\
  Forall (fun e => is_log e = true) (trace_of r) /\
  (verbose (options l) = false -> trace_of r = []).
Proof.
  induction fs as [|file rest IH]; intros fns w Hl; cbn zeta.
  - cbn. repeat split; try constructor. exists []. now rewrite app_nil_r.
  - rewrite (into_files_cons _ _ _ _ _ _ Hl).
    destruct (require host file) as [message|exps].
    { cbn. repeat split; try constructor. exists []. now rewrite app_nil_r. }
    cbn zeta.
    destruct (into_exports_frame host this (loaded_name host l file) l (length exps) 0 exps fns w Hl)
      as (A & B & [more C] & D & E).
    destruct (result_of (into_exports _ _ _ _ _ _ _ _)) as [fns'|e].
    + assert (Hl' : loaders (state_of (into_exports host this (loaded_name host l file)
                       (length exps) 0 exps fns w)) !! this = Some l) by (rewrite A; exact Hl).
      destruct (IH fns' _ Hl') as (A' & B' & [more' C'] & D' & E').
      cbn [state_of trace_of fst snd] in *.
      split; [congruence|]. split; [congruence|].
      split; [exists (more ++ more'); rewrite C', C, app_assoc; reflexivity|].
      split; [apply Forall_app; split; assumption|].
      intros Hv. rewrite (E Hv), (E' Hv). reflexivity.
    + cbn [state_of trace_of fst snd] in *. repeat split; try assumption. eauto.
Qed.

Lemma into_files_ok this l fs : forall fns w,
  loaders w !! this = Some l ->
  forallb (module_ok host) fs = true ->
  exists fns', result_of (into_files host this fs fns w) = Ok fns'.
Proof.
  induction fs as [|file rest IH]; intros fns w Hl Hok; [eexists; reflexivity|].
  cbn [forallb] in Hok. apply andb_true_iff in Hok as [Hfile Hrest].
  rewrite (into_files_cons _ _ _ _ _ _ Hl). unfold module_ok in Hfile.
  destruct (require host file) as [message|exps]; [discriminate|]. cbn zeta.
  destruct (into_exports_ok host this (loaded_name host l file) l (length exps) 0 exps fns w Hl Hfile)
    as [fns' Hr].
  destruct (into_exports_frame host this (loaded_name host l file) l (length exps) 0 exps fns w Hl)
    as (A & _).
  rewrite Hr. cbn [result_of fst]. apply IH; [|exact Hrest]. rewrite A. exact Hl.
Qed.


Lemma into_files_logs_missing_connection this l fs : forall fns w file exps v,
  loaders w !! this = Some l ->
  verbose (options l) = true ->
  forallb (module_ok host) fs = true ->
  file ∈ fs ->
  require host file = inr exps ->
  v ∈ exps ->
  class_without_connection host v = true ->
  ELog LError "cannot load route" ∈ trace_of (into_files host this fs fns w).
Proof.
  induction fs as [|f rest IH]; intros fns w file exps v Hl Hv Hok Hin Hreq Hvin Hc.
  - inversion Hin.
  - cbn [forallb] in Hok. apply andb_true_iff in Hok as [Hf Hrest].
    rewrite (into_files_cons _ _ _ _ _ _ Hl). unfold module_ok in Hf.
    destruct (require host f) as [message|exps0] eqn:Hreq0; [discriminate|]. cbn zeta.
    destruct (into_exports_ok host this (loaded_name host l f) l (length exps0) 0 exps0 fns w Hl Hf)
      as [fns' Hr].
    destruct (into_exports_frame host this (loaded_name host l f) l (length exps0) 0 exps0 fns w Hl)
      as (A & _).
    rewrite Hr. cbn [trace_of snd]. rewrite elem_of_app.
    apply elem_of_cons in Hin as [<-|Hin].
    + left. assert (exps0 = exps) as -> by congruence.
      apply list_elem_of_lookup in Hvin as [p Hp].
      apply (into_exports_logs_missing_connection host this _ l _ 0 exps fns w p v);
        try assumption. apply lookup_lt_Some in Hp. lia.
    + right. apply (IH fns' _ file exps v); try assumption. rewrite A. exact Hl.
Qed.

Lemma into_eq this server w l :
  loaders w !! this = Some l ->
  into host this server w =
  let r := into_files host this (files l) [] w in
  match result_of r with
  | Ok fns =>
      (Ok tt,
       set_listeners (<[server := default [] (listeners (state_of r) !! server)
                                    ++ [mkListener this fns]]> (listeners (state_of r)))
                     (state_of r),
       trace_of r)
  | Throw e => (Throw e, state_of r, trace_of r)
  end.
Proof.
  intros Hl. unfold into. unfold bind at 1. rewrite (on_this_get _ _ _ Hl).
  cbn zeta. unfold bind.
  destruct (into_files host this (files l) [] w) as [[[fns|e] s] t];
    cbn [result_of state_of trace_of fst snd app]; [|reflexivity].
  unfold server_on, modify. rewrite app_nil_r. reflexivity.
Qed.

(** A bind that raises registers no listener and changes no facade. *)
Lemma into_raises_registers_nothing this server w l :
  loaders w !! this = Some l ->
  raised (result_of (into host this server w)) = true ->
  listeners (state_of (into host this server w)) = listeners w /\
  loaders (state_of (into host this server w)) = loaders w.
Proof.
  intros Hl. rewrite (into_eq _ _ _ _ Hl). cbn zeta.
  destruct (into_files_frame this l (files l) [] w Hl) as (A & B & _).
  destruct (result_of (into_files host this (files l) [] w)); [discriminate|].
  intros _. cbn [state_of fst snd]. split; assumption.
Qed.

End Bind.

(** ** Dispatch *)

Section Dispatch.

Context (host : Host).

(** A call either is entered, is recorded with its arguments, returns
    or throws, and leaves facades and listeners alone; or raises before
    anything happens. *)
Lemma invoke_cases fn args w :
  (exists o w', invoke host fn args w = (o, w', [ECall fn args]) /\
                loaders w' = loaders w /\ listeners w' = listeners w /\
                length (instances w') = length (instances w)) \/
  (exists e, invoke host fn args w = (Throw e, w, [])).
Proof.
  destruct fn as [| | | | |id src [|]|r]; try (right; eexists; reflexivity).
  - left. exists (finish (fn_body host id args)), w. repeat split; reflexivity.
  - cbn [invoke]. destruct (instances w !! r) as [inst|]; [|right; eexists; reflexivity].
    destruct (cd_connection (class_def host (i_class inst))) as [[body| | |]|];
      try (right; eexists; reflexivity).
    left. eexists _, _. split; [reflexivity|]. cbn. repeat split. apply length_insert.
Qed.

(** An ordinary function that returns is called, and that is all. *)
Lemma invoke_returns fn args w :
  returns host args fn = true -> invoke host fn args w = (Ok tt, w, [ECall fn args]).
Proof.
  destruct fn as [| | | | |id src [|]|r]; try discriminate.
  cbn [returns invoke]. intros H. apply bool_decide_eq_true in H. rewrite H. reflexivity.
Qed.

Lemma call_handlers_cons this server socket l fn fns w :
  loaders w !! this = Some l ->
  call_handlers host this server socket (fn :: fns) w =
  match invoke host fn (VServer server :: socket :: extraArguments l) w with
  | (Ok _, w', t) =>
      let r := call_handlers host this server socket fns w' in
      (result_of r, state_of r, t ++ trace_of r)
  | (Throw e, w', t) => (Throw e, w', t)
  end.
Proof.
  intros Hl. cbn [call_handlers]. unfold bind at 1. rewrite (on_this_get _ _ _ Hl).
  unfold bind. destruct (invoke host fn _ w) as [[[[]|e] w'] t]; [|reflexivity].
  destruct (call_handlers host this server socket fns w') as [[r s] t']. reflexivity.
Qed.

(** The listener calls the handlers in array order, each with the
    server, the socket and the facade's extra arguments as they are
    when the event fires, until one raises. *)
Lemma call_handlers_spec this server socket l fns : forall w,
  loaders w !! this = Some l ->
  let args := VServer server :: socket :: extraArguments l in
  let r := call_handlers host this server socket fns w in
  exists k,
    k <= length fns /\
    trace_of r = map (fun fn => ECall fn args) (take k fns) /\
    (result_of r = Ok tt -> k = length fns) /\
    loaders (state_of r) = loaders w /\
    listeners (state_of r) = listeners w.
Proof.
  induction fns as [|fn fns IH]; intros w Hl; cbn zeta.
  - exists 0. cbn. repeat split; lia.
  - rewrite (call_handlers_cons _ _ _ _ _ _ _ Hl).
    destruct (invoke_cases fn (VServer server :: socket :: extraArguments l) w)
      as [(o & w' & -> & HL & HS & _)|(e & ->)].
    + assert (Hl' : loaders w' !! this = Some l) by (rewrite HL; exact Hl).
      destruct o as [[]|e].
      * destruct (IH w' Hl') as (k & Hk & Ht & Hr & A & B). cbn zeta.
        cbn [result_of state_of trace_of fst snd app] in *.
        exists (S k). cbn [take map length]. rewrite Ht.
        split; [lia|]. split; [reflexivity|]. split; [intros H; rewrite (Hr H); reflexivity|].
        split; congruence.
      * exists 1. cbn [result_of state_of trace_of fst snd length take map].
        rewrite take_0. split; [lia|]. split; [reflexivity|]. split; [discriminate|].
        split; assumption.
    + exists 0. cbn. repeat split; try lia. discriminate.
Qed.


Lemma answers_insert insts args fn r inst props :
  insts !! r = Some inst ->
  answers host insts args fn ->
  answers host (<[r := mkInstance (i_class inst) props]> insts) args fn.
Proof.
  intros Hr. destruct fn as [| | | | |id src [|]|r']; try exact (fun H => H).
  cbn [answers]. intros (inst' & body & Hi & Hc & Hb).
  destruct (decide (r = r')) as [<-|Hne].
  - exists (mkInstance (i_class inst) props), body.
    split; [apply list_lookup_insert_eq; eapply lookup_lt_Some; exact Hr|].
    assert (inst' = inst) as -> by congruence. split; [exact Hc|exact Hb].
  - exists inst', body. rewrite list_lookup_insert_ne by exact Hne. auto.
Qed.

(** A handler that answers is called, returns, and leaves the other
    handlers answering. *)
Lemma invoke_answers fn args w :
  answers host (instances w) args fn ->
  exists w',
    invoke host fn args w = (Ok tt, w', [ECall fn args]) /\
    loaders w' = loaders w /\
    forall fn', answers host (instances w) args fn' -> answers host (instances w') args fn'.
Proof.
  destruct fn as [| | | | |id src [|]|r]; cbn [answers]; try contradiction.
  - intros H. exists w. cbn [invoke]. rewrite H. repeat split. exact (fun _ H' => H').
  - intros (inst & body & Hi & Hc & Hb). cbn [invoke]. rewrite Hi, Hc, Hb.
    eexists. split; [reflexivity|]. split; [reflexivity|].
    intros fn'. cbn [instances set_instances]. now apply answers_insert.
Qed.

(** Handlers that all answer are all called, in array order, and the
    listener returns. *)
Lemma call_handlers_answering this server socket l fns : forall w,
  loaders w !! this = Some l ->
  Forall (answers host (instances w) (VServer server :: socket :: extraArguments l)) fns ->
  result_of (call_handlers host this server socket fns w) = Ok tt /\
  trace_of (call_handlers host this server socket fns w) =
    calls_of server socket (extraArguments l) fns.
Proof.
  induction fns as [|fn fns IH]; intros w Hl Hall; [split; reflexivity|].
  inversion Hall as [|? ? Hfn Hrest]; subst.
  rewrite (call_handlers_cons _ _ _ _ _ _ _ Hl).
  destruct (invoke_answers _ _ _ Hfn) as (w' & -> & HL & Hkeep).
  assert (Hl' : loaders w' !! this = Some l) by (rewrite HL; exact Hl).
  destruct (IH w' Hl') as [Hr Ht].
  { eapply Forall_impl; [exact Hrest|]. exact Hkeep. }
  cbn zeta. cbn [result_of state_of trace_of fst snd]. split; [exact Hr|].
  rewrite Ht. reflexivity.
Qed.

Lemma emit_connection_eq server socket w :
  emit_connection host server socket w =
  emit_loop host server socket (default [] (listeners w !! server)) w.
Proof.
  unfold emit_connection, bind, get.
  destruct (emit_loop _ _ _ _ _) as [[r s] t]. reflexivity.
Qed.

Lemma emit_loop_single server socket cb w :
  emit_loop host server socket [cb] w =
  call_handlers host (lst_this cb) server socket (lst_fns cb) w.
Proof.
  cbn [emit_loop]. unfold bind.
  destruct (call_handlers _ _ _ _ _ _) as [[[[]|e] s] t]; [|reflexivity].
  cbn. rewrite app_nil_r. reflexivity.
Qed.

End Dispatch.

(** ** The namespace flag *)

Section Namespace.

Context (host : Host) (b : bool).

Lemma blind_ret {A} (a : A) : blind b (ret a).
Proof. intros w. reflexivity. Qed.

Lemma blind_throw {A} e : blind b (@throw World A e).
Proof. intros w. reflexivity. Qed.

Lemma blind_bind {A B} (m : M World A) (k : A -> M World B) :
  blind b m -> (forall a, blind b (k a)) -> blind b (bind m k).
Proof.
  intros Hm Hk w. unfold bind. rewrite Hm. unfold flagged.
  destruct (m w) as [[[a|e] s] t]; cbn [result_of state_of trace_of fst snd]; [|reflexivity].
  rewrite Hk. destruct (k a s) as [[r' s'] t']. reflexivity.
Qed.

Lemma blind_on_this {A} this (m : M Loader A) : blind_method b m -> blind b (on_this this m).
Proof.
  intros Hm w. unfold on_this, flag_world at 1. cbn [loaders set_loaders].
  rewrite list_lookup_fmap. destruct (loaders w !! this) as [l|]; cbn [fmap option_fmap option_map].
  - rewrite Hm. destruct (m l) as [[r l'] t]. unfold flagged, flag_world.
    cbn [result_of state_of trace_of fst snd set_loaders loaders listeners instances].
    rewrite list_fmap_insert. reflexivity.
  - reflexivity.
Qed.

(** Reading the facade and going on with something that does not look
    at the flag. *)
Lemma blind_read {A} this (k : Loader -> M World A) :
  (forall l, blind b (k l)) ->
  (forall l w, k (flag_loader b l) w = k l w) ->
  blind b (bind (on_this this get) k).
Proof.
  intros Hk Hsame w.
  assert (Hf : loaders (flag_world b w) !! this = flag_loader b <$> loaders w !! this).
  { unfold flag_world. cbn [loaders set_loaders]. apply list_lookup_fmap. }
  destruct (loaders w !! this) as [l|] eqn:Hl.
  - unfold bind. rewrite (on_this_get _ _ _ Hl), (on_this_get _ _ _ Hf).
    rewrite Hsame, Hk. unfold flagged. destruct (k l w) as [[r s] t]. reflexivity.
  - unfold bind, on_this. rewrite Hf, Hl. reflexivity.
Qed.

Lemma blind_log message type : blind_method b (log message type).
Proof. intros l. rewrite !log_eq. reflexivity. Qed.

Lemma blind_when_loop location names : blind_method b (when_loop host location names).
Proof.
  induction names as [|n names IH]; intros l; [reflexivity|].
  rewrite !when_loop_cons. cbn [flag_loader options set_withNamespace extensions verbose].
  destruct (regex_exec_extension n); [|reflexivity]. cbn zeta.
  destruct (accepted (extensions (options l)) n).
  - change (set_files (files (flag_loader b l) ++ [path_join host location n]) (flag_loader b l))
      with (flag_loader b (set_files (files l ++ [path_join host location n]) l)).
    rewrite IH. reflexivity.
  - rewrite IH. reflexivity.
Qed.

Lemma blind_when dirname : blind_method b (when host dirname).
Proof.
  intros l. rewrite !when_eq. cbn zeta. cbn [flag_loader options set_withNamespace cwd verbose].
  destruct (existsSync host _); cbn [negb]; [|reflexivity].
  destruct (isDirectory host _); cbn [negb]; [|reflexivity].
  apply blind_when_loop.
Qed.

Lemma blind_withExtraArgument xs : blind_method b (withExtraArgument xs).
Proof. intros l. reflexivity. Qed.

Lemma blind_construct c : blind b (construct host c).
Proof.
  destruct c as [| | | | |id src [|]|r]; intros w; try reflexivity.
  cbn [construct]. destruct (cd_construct (class_def host id)); reflexivity.
Qed.

Lemma blind_connection_in r : blind b (connection_in host r).
Proof.
  intros w. unfold connection_in. cbn [flag_world set_loaders instances].
  destruct (instances w !! r); reflexivity.
Qed.

Lemma blind_bind_connection r : blind b (bind_connection host r).
Proof.
  intros w. unfold bind_connection. cbn [flag_world set_loaders instances].
  destruct (instances w !! r) as [inst|]; [|reflexivity].
  destruct (cd_connection (class_def host (i_class inst))) as [m|]; [|reflexivity].
  destruct (bound r m); reflexivity.
Qed.

Lemma blind_instantiate_class this i exps : blind b (instantiate_class host this i exps).
Proof.
  unfold instantiate_class. apply blind_bind; [apply blind_construct|]. intros r.
  apply blind_bind; [apply blind_connection_in|]. intros [|].
  - apply blind_bind; [apply blind_bind_connection|]. intros v. apply blind_ret.
  - apply blind_bind; [apply blind_on_this, blind_log|]. intros _. apply blind_ret.
Qed.

Lemma blind_into_exports this name n : forall idx exps fns,
  blind b (into_exports host this name n idx exps fns).
Proof.
  induction n as [|n IH]; intros idx exps fns; [apply blind_ret|].
  cbn [into_exports]. destruct (exps !! idx) as [i|]; [|apply blind_ret].
  destruct (negb (is_function i)); [apply blind_throw|].
  apply blind_bind.
  - destruct (class_shaped (to_string i)); [apply blind_instantiate_class|apply blind_ret].
  - intros exps'. apply blind_bind; [apply blind_on_this, blind_log|]. intros _. apply IH.
Qed.

Lemma blind_into_files this fs : forall fns, blind b (into_files host this fs fns).
Proof.
  induction fs as [|file rest IH]; intros fns; [apply blind_ret|].
  cbn [into_files]. apply blind_read.
  - intros l. destruct (require host file); [apply blind_throw|].
    apply blind_bind; [apply blind_into_exports|]. intros fns'. apply IH.
  - intros l w. reflexivity.
Qed.

Lemma blind_server_on server cb : blind b (server_on server cb).
Proof. intros w. reflexivity. Qed.

Lemma blind_into this server : blind b (into host this server).
Proof.
  unfold into. apply blind_read.
  - intros l. apply blind_bind; [apply blind_into_files|]. intros fns. apply blind_server_on.
  - intros l w. reflexivity.
Qed.

Lemma blind_invoke fn args : blind b (invoke host fn args).
Proof.
  destruct fn as [| | | | |id src [|]|r]; intros w; try reflexivity.
  cbn [invoke flag_world set_loaders instances].
  destruct (instances w !! r) as [inst|]; [|reflexivity].
  destruct (cd_connection (class_def host (i_class inst))) as [[body| | |]|]; reflexivity.
Qed.

Lemma blind_call_handlers this server socket fns :
  blind b (call_handlers host this server socket fns).
Proof.
  induction fns as [|fn fns IH]; [apply blind_ret|].
  cbn [call_handlers]. apply blind_read.
  - intros l. apply blind_bind; [apply blind_invoke|]. intros _. apply IH.
  - intros l w. reflexivity.
Qed.

Lemma blind_emit_loop server socket ls : blind b (emit_loop host server socket ls).
Proof.
  induction ls as [|cb ls IH]; [apply blind_ret|].
  cbn [emit_loop]. apply blind_bind; [apply blind_call_handlers|]. intros _. apply IH.
Qed.

Lemma blind_emit_connection server socket : blind b (emit_connection host server socket).
Proof. intros w. rewrite !emit_connection_eq. apply blind_emit_loop. Qed.

Lemma blind_run_op o : blind b (run_op host o).
Proof.
  destruct o; cbn [run_op].
  - apply blind_on_this, blind_when.
  - apply blind_on_this, blind_withExtraArgument.
  - apply blind_into.
  - apply blind_emit_connection.
Qed.

Lemma blind_run_ops os : blind b (run_ops host os).
Proof.
  induction os as [|o os IH]; [apply blind_ret|].
  cbn [run_ops]. apply blind_bind; [apply blind_run_op|]. intros _. apply IH.
Qed.

End Namespace.

(** ** Properties of the scan *)

(** C10: a directory listing holding an entry whose name ends with the
    dot character makes the scan raise (the extension pattern matches
    nothing and the destructuring of [null] throws a TypeError); the
    entry is neither skipped nor soft-failed, and the failing branch is
    reached through the public [when]. *)
Theorem C10_scan_raises_on_trailing_dot host l dirname name :
  let location := path_join host (cwd (options l)) dirname in
  existsSync host location = true ->
  isDirectory host location = true ->
  name ∈ readdirSync host location ->
  ends_with_dot name = true ->
  regex_exec_extension name = None /\
  result_of (when host dirname l) = Throw null_not_iterable.
Proof.
  cbn zeta. intros Hex Hdir Hin Hdot.
  pose proof (regex_exec_extension_trailing_dot _ Hdot) as Hnone.
  split; [exact Hnone|].
  rewrite when_eq. cbn zeta. rewrite Hex, Hdir. cbn [negb].
  apply when_loop_raises. apply Exists_exists. exists name. split; [|exact Hnone].
  exact Hin.
Qed.

Lemma C10_scan_raises_on_trailing_dot_witness :
  regex_exec_extension "notes." = None /\
  result_of (when Sample.host "dots" (new_Loader Sample.quiet)) = Throw null_not_iterable.
Proof.
  apply (C10_scan_raises_on_trailing_dot Sample.host (new_Loader Sample.quiet) "dots" "notes.").
  - reflexivity.
  - reflexivity.
  - vm_compute. apply list_elem_of_In. right. left. reflexivity.
  - reflexivity.
Defined.

(** C4, at a listing with an entry that has no extension: the entries
    [a.js] and [b.js] are accepted and not hidden, but the scan raises
    at [notes.] and only [a.js] has been appended. *)
Theorem C4_scan_stops_at_entry_without_extension :
  let l := new_Loader Sample.quiet in
  readdirSync Sample.host "/app/dots" = ["a.js"; "notes."; "b.js"] /\
  List.filter (accepted (extensions Sample.quiet)) ["a.js"; "notes."; "b.js"] = ["a.js"; "b.js"] /\
  when Sample.host "dots" l =
    (Throw null_not_iterable, set_files ["/app/dots/a.js"] l, []).
Proof. cbn zeta. split; [reflexivity|]. split; reflexivity. Qed.

(** C7 as stated fails with the default options: scanning a location
    that does not exist logs nothing, because [verbose] is off. *)
Lemma C7_counterexample :
  let l := Loader_constructor "/app" no_overrides in
  existsSync Sample.host (path_join Sample.host "/app" "nowhere") = false /\
  result_of (when Sample.host "nowhere" l) = Ok tt /\
  List.filter is_error_log (trace_of (when Sample.host "nowhere" l)) = [] /\
  trace_of (when Sample.host "nowhere" l) = [].
Proof. cbn zeta. repeat split; reflexivity. Qed.

(** C7, amended: a scan whose resolved location does not exist, or is
    not a directory, returns without raising and leaves the store (so
    the Discovered File List) unchanged; it logs one error-level message
    when [verbose] is on and nothing otherwise; a bind after it does what
    the bind would have done without it. *)
Theorem C7_scan_of_missing_location_is_soft host this dirname w l :
  loaders w !! this = Some l ->
  let location := path_join host (cwd (options l)) dirname in
  existsSync host location = false \/ isDirectory host location = false ->
  let r := on_this this (when host dirname) w in
  result_of r = Ok tt /\
  state_of r = w /\
  loaders (state_of r) !! this = Some l /\
  trace_of r =
    if_verbose (verbose (options l))
      [ELog LError (if existsSync host location then location ++ " not is an folder"
                    else "Entity not found " ++ location)] /\
  forall server,
    let both := run_ops host [OpWhen this dirname; OpInto this server] w in
    result_of both = result_of (into host this server w) /\
    state_of both = state_of (into host this server w) /\
    trace_of both = trace_of r ++ trace_of (into host this server w).
Proof.
  intros Hl. cbn zeta. intros Hbad.
  assert (Hw : when host dirname l =
    (Ok tt, l,
     if_verbose (verbose (options l))
       [ELog LError (if existsSync host (path_join host (cwd (options l)) dirname)
                     then path_join host (cwd (options l)) dirname ++ " not is an folder"
                     else "Entity not found " ++ path_join host (cwd (options l)) dirname)])).
  { rewrite when_eq. cbn zeta.
    destruct (existsSync host _); cbn [negb]; [|reflexivity].
    destruct Hbad as [?| ->]; [discriminate|]. reflexivity. }
  assert (Hr : on_this this (when host dirname) w =
    (Ok tt, w,
     if_verbose (verbose (options l))
       [ELog LError (if existsSync host (path_join host (cwd (options l)) dirname)
                     then path_join host (cwd (options l)) dirname ++ " not is an folder"
                     else "Entity not found " ++ path_join host (cwd (options l)) dirname)])).
  { rewrite (on_this_eq _ _ _ _ Hl), Hw. cbn [result_of state_of trace_of fst snd].
    rewrite (set_loaders_insert_id _ _ _ Hl). reflexivity. }
  rewrite Hr. cbn [result_of state_of trace_of fst snd].
  repeat split; try reflexivity; try exact Hl.
  all: cbn [run_ops run_op]; unfold bind, ret; rewrite Hr;
    destruct (into host this server w) as [[[[]|e] s] t];
    cbn [result_of state_of trace_of fst snd]; rewrite ?app_nil_r; reflexivity.
Qed.

Lemma C7_scan_of_missing_location_is_soft_witness :
  let w := world_of (mkLoader Sample.chatty [] ["/app/handlers/a.js"]) in
  let r := on_this 0 (when Sample.host "nowhere") w in
  result_of r = Ok tt /\ state_of r = w /\
  trace_of r = [ELog LError "Entity not found /app/nowhere"].
Proof.
  cbn zeta.
  destruct (C7_scan_of_missing_location_is_soft Sample.host 0 "nowhere"
              (world_of (mkLoader Sample.chatty [] ["/app/handlers/a.js"]))
              (mkLoader Sample.chatty [] ["/app/handlers/a.js"])
              eq_refl (or_introl eq_refl)) as (A & B & _ & D & _).
  split; [exact A|]. split; [exact B|]. exact D.
Defined.

(** ** Properties of the extra arguments *)

Lemma accumulate_eq calls : forall l,
  accumulate calls l = (Ok tt, set_extraArguments (extraArguments l ++ concat calls) l, []).
Proof.
  induction calls as [|xs calls IH]; intros l.
  - cbn. rewrite app_nil_r. destruct l; reflexivity.
  - cbn [accumulate concat]. unfold bind, withExtraArgument, modify. rewrite IH.
    cbn [extraArguments set_extraArguments]. rewrite <- app_assoc. reflexivity.
Qed.

Lemma lookup_this_insert (ls : list Loader) this l l' :
  ls !! this = Some l -> <[this := l']> ls !! this = Some l'.
Proof. intros H. apply list_lookup_insert_eq. eapply lookup_lt_Some. exact H. Qed.

(** C6: after any sequence of [withExtraArgument] calls the Extra
    Argument List is the earlier list followed by the calls' arguments,
    flattened in call order (so [concat calls] for a new facade, and
    [1; 2; 3] after [(1, 2)] then [(3)]), and the listener passes that
    list, in order, after the server and the connection, in every call of
    a handler it makes: the calls it makes are those of a prefix of the
    handler array, in array order, each with these arguments, and when
    every handler is an ordinary function or a bound method that returns
    on these arguments, every handler of the array is called so and the
    listener returns. *)
Theorem C6_extra_arguments_concatenate_and_reach_handlers
    host this server socket calls fns w l :
  loaders w !! this = Some l ->
  let r := on_this this (accumulate calls) w in
  let xs := extraArguments l ++ concat calls in
  result_of r = Ok tt /\
  loaders (state_of r) !! this = Some (set_extraArguments xs l) /\
  (forall opts, extraArguments (state_of (accumulate calls (new_Loader opts))) = concat calls) /\
  extraArguments
    (state_of (accumulate [[VNum 1; VNum 2]; [VNum 3]] (new_Loader (options l)))) =
    [VNum 1; VNum 2; VNum 3] /\
  let d := call_handlers host this server socket fns (state_of r) in
  (exists k,
     k <= length fns /\
     trace_of d = map (fun fn => ECall fn (VServer server :: socket :: xs)) (take k fns) /\
     (result_of d = Ok tt -> k = length fns)) /\
  (Forall (answers host (instances w) (VServer server :: socket :: xs)) fns ->
   result_of d = Ok tt /\
   trace_of d = map (fun fn => ECall fn (VServer server :: socket :: xs)) fns).
Proof.
  intros Hl. cbn zeta. rewrite (on_this_eq _ _ _ _ Hl), accumulate_eq.
  cbn [result_of state_of trace_of fst snd loaders set_loaders].
  split; [reflexivity|].
  assert (Hl' : <[this := set_extraArguments (extraArguments l ++ concat calls) l]> (loaders w)
                  !! this = Some (set_extraArguments (extraArguments l ++ concat calls) l))
    by (eapply lookup_this_insert; exact Hl).
  split; [exact Hl'|].
  split; [intros opts; rewrite accumulate_eq; reflexivity|].
  split; [reflexivity|].
  split.
  - destruct (call_handlers_spec host this server socket _ fns
                (set_loaders (<[this := set_extraArguments (extraArguments l ++ concat calls) l]>
                                (loaders w)) w) Hl') as (k & Hk & Ht & Hr & _).
    exists k. split; [exact Hk|]. split; [exact Ht|exact Hr].
  - intros Hall.
    exact (call_handlers_answering host this server socket _ fns
             (set_loaders (<[this := set_extraArguments (extraArguments l ++ concat calls) l]>
                             (loaders w)) w) Hl' Hall).
Qed.

Lemma C6_extra_arguments_concatenate_and_reach_handlers_witness :
  let w := mkWorld [new_Loader Sample.quiet] ∅ [mkInstance 3 ∅] in
  let r := on_this 0 (accumulate [[VNum 1; VNum 2]; [VNum 3]]) w in
  let d := call_handlers Sample.host 0 Sample.server Sample.socket
             [Sample.a; VBound 0; Sample.b] (state_of r) in
  let args := [VServer Sample.server; Sample.socket; VNum 1; VNum 2; VNum 3] in
  result_of r = Ok tt /\
  loaders (state_of r) !! 0 = Some (mkLoader Sample.quiet [VNum 1; VNum 2; VNum 3] []) /\
  result_of d = Ok tt /\
  trace_of d = [ECall Sample.a args; ECall (VBound 0) args; ECall Sample.b args].
Proof.
  cbn zeta.
  destruct (C6_extra_arguments_concatenate_and_reach_handlers Sample.host 0 Sample.server
              Sample.socket [[VNum 1; VNum 2]; [VNum 3]] [Sample.a; VBound 0; Sample.b]
              (mkWorld [new_Loader Sample.quiet] ∅ [mkInstance 3 ∅])
              (new_Loader Sample.quiet) eq_refl)
    as (A & B & _ & _ & _ & D).
  split; [exact A|]. split; [exact B|].
  apply D. repeat constructor.
  exists (mkInstance 3 ∅), Sample.chat_body. repeat split.
Defined.



(** ** The namespace flag is dead *)

Lemma flag_world_new b opts :
  world_of (new_Loader (set_withNamespace b opts)) = flag_world b (world_of (new_Loader opts)).
Proof. reflexivity. Qed.

Lemma fmap_flag_loader {A} (f : Loader -> A) b (ls : list Loader) :
  (forall l, f (flag_loader b l) = f l) ->
  f <$> (flag_loader b <$> ls) = f <$> ls.
Proof.
  intros Hf. induction ls as [|l ls IH]; [reflexivity|].
  cbn [fmap list_fmap] in *. rewrite Hf. f_equal. exact IH.
Qed.

(** C8: two facades constructed from arguments that differ only in the
    [withNamespace] key (given as true, given as false, or left out),
    run through the same script of scans, accumulations, binds and
    connection events, return or raise alike, emit the same log lines and
    handler calls in the same order, and end with the same file lists,
    extra arguments, listeners and instances. *)
Theorem C8_namespace_flag_is_never_read host process_cwd o nb script :
  let r1 := run_ops host script (world_of (Loader_constructor process_cwd o)) in
  let r2 := run_ops host script
              (world_of (Loader_constructor process_cwd (set_o_withNamespace nb o))) in
  result_of r2 = result_of r1 /\
  trace_of r2 = trace_of r1 /\
  files <$> loaders (state_of r2) = files <$> loaders (state_of r1) /\
  extraArguments <$> loaders (state_of r2) = extraArguments <$> loaders (state_of r1) /\
  listeners (state_of r2) = listeners (state_of r1) /\
  instances (state_of r2) = instances (state_of r1).
Proof.
  cbn zeta.
  change (Loader_constructor process_cwd (set_o_withNamespace nb o))
    with (new_Loader (set_withNamespace (default true nb)
                        (merge_options (default_options process_cwd) o))).
  unfold Loader_constructor.
  rewrite flag_world_new, (blind_run_ops host (default true nb) script).
  unfold flagged, flag_world. cbn [result_of state_of trace_of fst snd loaders set_loaders
                                   listeners instances].
  repeat split; apply fmap_flag_loader; reflexivity.
Qed.

(** ** Properties of the bind *)

Section BindFailures.

Context (host : Host).


End BindFailures.




(** C2 as stated fails: with the default options ([verbose] off) binding
    a file that exports a class without [connection] logs nothing, and
    the constructor stays in the handler array, so the next connection
    event calls it as a function, which raises a TypeError. *)
Lemma C2_counterexample :
  let script := [OpWhen 0 "silent"; OpInto 0 Sample.server] in
  let bound := run_ops Sample.host script (world_of (Loader_constructor "/app" no_overrides)) in
  readdirSync Sample.host "/app/silent" = ["silent.js"] /\
  require Sample.host "/app/silent/silent.js" = inr [Sample.Silent] /\
  class_without_connection Sample.host Sample.Silent = true /\
  result_of bound = Ok tt /\
  trace_of bound = [] /\
  List.filter is_error_log (trace_of bound) = [] /\
  listeners (state_of bound) !! Sample.server = Some [mkListener 0 [Sample.Silent]] /\
  emit_connection Sample.host Sample.server Sample.socket (state_of bound) =
    (Throw (class_called_without_new "Silent"), state_of bound, []).
Proof. cbn zeta. repeat split; vm_compute; reflexivity. Qed.

(** C2, amended: when every discovered module loads and every export
    can be bound (it is a function; one whose text is class-shaped is a
    real constructor, which returns, and the [connection] of its
    instance, if there is one, is a method), binding does not raise; for
    each export that is a class-shaped constructor without a
    [connection] method it logs the error-level message
    [cannot load route] when [verbose] is on, and with [verbose] off it
    logs nothing at all. *)
Theorem C2_class_without_connection_is_logged_when_verbose host this server w l :
  loaders w !! this = Some l ->
  forallb (module_ok host) (files l) = true ->
  let r := into host this server w in
  result_of r = Ok tt /\
  (verbose (options l) = false -> trace_of r = []) /\
  (verbose (options l) = true ->
   forall file exps v,
     file ∈ files l -> require host file = inr exps -> v ∈ exps ->
     class_without_connection host v = true ->
     ELog LError "cannot load route" ∈ trace_of r).
Proof.
  intros Hl Hok. cbn zeta. rewrite (into_eq _ _ _ _ _ Hl). cbn zeta.
  destruct (into_files_ok host this l (files l) [] w Hl Hok) as [fns Hr].
  destruct (into_files_frame host this l (files l) [] w Hl) as (_ & _ & _ & _ & Hquiet).
  pose proof (into_files_logs_missing_connection host this l (files l) [] w) as Hlogs.
  rewrite Hr. cbn [result_of state_of trace_of fst snd].
  split; [reflexivity|]. split; [exact Hquiet|].
  intros Hv file exps v Hin Hreq Hvin Hc. exact (Hlogs file exps v Hl Hv Hok Hin Hreq Hvin Hc).
Qed.

Lemma C2_class_without_connection_is_logged_when_verbose_witness :
  let w := world_of (mkLoader Sample.chatty [] ["/app/silent/silent.js"]) in
  result_of (into Sample.host 0 Sample.server w) = Ok tt /\
  ELog LError "cannot load route" ∈ trace_of (into Sample.host 0 Sample.server w).
Proof.
  cbn zeta.
  destruct (C2_class_without_connection_is_logged_when_verbose Sample.host 0 Sample.server
              (world_of (mkLoader Sample.chatty [] ["/app/silent/silent.js"]))
              (mkLoader Sample.chatty [] ["/app/silent/silent.js"]) eq_refl eq_refl)
    as (A & _ & C).
  split; [exact A|].
  exact (C eq_refl "/app/silent/silent.js" [Sample.Silent] Sample.Silent
           (list_elem_of_here _ _) eq_refl (list_elem_of_here _ _) eq_refl).
Defined.

(** ** What one module contributes to the handler array *)

Section OneModule.

Context (host : Host).

Lemma into_one_file this server w l file :
  loaders w !! this = Some l ->
  files l = [file] ->
  into host this server w =
  match require host file with
  | inl message => (Throw (failed_to_require file message), w, [])
  | inr exps =>
      let r := into_exports host this (loaded_name host l file) (length exps) 0 exps [] w in
      match result_of r with
      | Ok fns =>
          (Ok tt,
           set_listeners (<[server := default [] (listeners (state_of r) !! server)
                                        ++ [mkListener this fns]]> (listeners (state_of r)))
                         (state_of r),
           trace_of r)
      | Throw e => (Throw e, state_of r, trace_of r)
      end
  end.
Proof.
  intros Hl Hfiles. rewrite (into_eq _ _ _ _ _ Hl), Hfiles. cbn zeta.
  rewrite (into_files_cons _ _ _ _ _ _ _ Hl).
  destruct (require host file) as [message|exps]; [reflexivity|]. cbn zeta.
  destruct (into_exports _ _ _ _ _ _ _ _) as [[[fns|e] s] t];
    cbn [result_of state_of trace_of fst snd into_files]; [|reflexivity].
  unfold ret. cbn [result_of state_of trace_of fst snd]. rewrite app_nil_r. reflexivity.
Qed.


(** A module whose only export is a class whose constructor returns and
    whose instances have a [connection] method is instantiated once, and
    the bound method is the only handler. *)
Lemma into_single_class_module this server w l file id src init body :
  loaders w !! this = Some l ->
  files l = [file] ->
  require host file = inr [VFunc id src Ctor] ->
  class_shaped src = true ->
  cd_construct (class_def host id) = inr init ->
  cd_connection (class_def host id) = Some (Method body) ->
  into host this server w =
  (Ok tt,
   set_listeners (<[server := default [] (listeners w !! server)
                       ++ [mkListener this [VBound (length (instances w))]]]> (listeners w))
     (set_instances (instances w ++ [mkInstance id init]) w),
   if_verbose (verbose (options l)) [ELog LInfo ("loaded: " ++ loaded_name host l file)]).
Proof.
  intros Hl Hfiles Hreq Hshape Hinit Hconn.
  rewrite (into_one_file _ _ _ _ _ Hl Hfiles), Hreq. cbn zeta. cbn [length].
  rewrite (into_exports_S host this _ 0 0 [VFunc id src Ctor] [] w l (VFunc id src Ctor) Hl eq_refl).
  cbn zeta. rewrite Hshape, Hinit, Hconn. cbn [bound].
  cbn [into_exports]. unfold ret, assign_index_of. cbn [index_of].
  rewrite decide_True by reflexivity.
  cbn [result_of state_of trace_of fst snd app]. rewrite app_nil_r. reflexivity.
Qed.

(** Calling a bound [connection] method runs its body on the properties
    its instance has at that moment and stores the properties it leaves
    in the same instance, whether it returns or throws. *)
Lemma invoke_bound r inst body args w :
  instances w !! r = Some inst ->
  cd_connection (class_def host (i_class inst)) = Some (Method body) ->
  invoke host (VBound r) args w =
  (finish (fst (body (i_props inst) args)),
   set_instances
     (<[r := mkInstance (i_class inst) (snd (body (i_props inst) args))]> (instances w)) w,
   [ECall (VBound r) args]).
Proof. intros Hi Hm. cbn [invoke]. rewrite Hi, Hm. reflexivity. Qed.

(** Bind a module whose only export is a class whose constructor returns
    the properties [init] and whose instances have the method [body] as
    [connection], on a server without listeners. Each connection event
    then calls the bound method of that one instance, and ends as the
    body does: the second event runs the body on the properties the
    first call left, whether that call returned or threw. *)
Lemma single_class_module_reuses_its_instance this server w l file id src init body s1 s2 :
  loaders w !! this = Some l ->
  files l = [file] ->
  require host file = inr [VFunc id src Ctor] ->
  class_shaped src = true ->
  cd_construct (class_def host id) = inr init ->
  cd_connection (class_def host id) = Some (Method body) ->
  listeners w !! server = None ->
  let r := length (instances w) in
  let bound := into host this server w in
  let e1 := emit_connection host server s1 (state_of bound) in
  let e2 := emit_connection host server s2 (state_of e1) in
  let args1 := VServer server :: s1 :: extraArguments l in
  let args2 := VServer server :: s2 :: extraArguments l in
  let first := body init args1 in
  let second := body (snd first) args2 in
  result_of bound = Ok tt /\
  instances (state_of bound) = instances w ++ [mkInstance id init] /\
  listeners (state_of bound) !! server = Some [mkListener this [VBound r]] /\
  e1 = (finish (fst first),
        set_instances (instances w ++ [mkInstance id (snd first)]) (state_of bound),
        [ECall (VBound r) args1]) /\
  e2 = (finish (fst second),
        set_instances (instances w ++ [mkInstance id (snd second)]) (state_of bound),
        [ECall (VBound r) args2]).
Proof.
  intros Hl Hfiles Hreq Hshape Hinit Hconn Hnone. cbn zeta.
  rewrite (into_single_class_module _ _ _ _ _ _ _ _ _ Hl Hfiles Hreq Hshape Hinit Hconn).
  cbn [result_of state_of trace_of fst snd]. rewrite Hnone. cbn [default app].
  set (wb := set_listeners _ _).
  assert (Hs : forall insts, listeners (set_instances insts wb) !! server =
                             Some [mkListener this [VBound (length (instances w))]]).
  { intros insts. unfold wb. cbn [listeners set_listeners set_instances].
    apply lookup_insert_eq. }
  assert (Hstep : forall s props,
    emit_connection host server s (set_instances (instances w ++ [mkInstance id props]) wb) =
    (finish (fst (body props (VServer server :: s :: extraArguments l))),
     set_instances
       (instances w ++
        [mkInstance id (snd (body props (VServer server :: s :: extraArguments l)))]) wb,
     [ECall (VBound (length (instances w))) (VServer server :: s :: extraArguments l)])).
  { intros s props. rewrite emit_connection_eq, Hs.
    unfold default, from_option, Datatypes.id. cbn beta iota.
    rewrite emit_loop_single. cbn [lst_this lst_fns].
    rewrite (call_handlers_cons host this server s l) by exact Hl.
    rewrite (invoke_bound (length (instances w)) (mkInstance id props) body).
    - cbn [i_props i_class set_instances instances loaders listeners].
      rewrite insert_app_r_alt by lia. rewrite Nat.sub_diag. cbn [insert list_insert].
      destruct (fst (body props (VServer server :: s :: extraArguments l))) as [e|];
        cbn [finish]; [reflexivity|].
      cbn [call_handlers]. unfold ret. cbn [result_of state_of trace_of fst snd app].
      reflexivity.
    - cbn [instances set_instances]. apply list_lookup_middle. reflexivity.
    - exact Hconn. }
  split; [reflexivity|]. split; [reflexivity|]. split; [apply (Hs (instances wb))|].
  pose proof (Hstep s1 init) as H1.
  change (set_instances (instances w ++ [mkInstance id init]) wb) with wb in H1.
  rewrite H1. cbn [state_of fst snd]. split; [reflexivity|]. apply Hstep.
Qed.

End OneModule.

(** C1, at a directory with one file exporting two ordinary functions
    [a] and [b]: the listener's array is [a; b; a; b], and one
    connection event calls [a], [b], [a], [b], each with the server and
    the connection only. *)
Theorem C1_two_exports_are_each_bound_twice :
  let script := [OpWhen 0 "two"; OpInto 0 Sample.server] in
  let bound := run_ops Sample.host script (world_of (new_Loader Sample.quiet)) in
  let args := [VServer Sample.server; Sample.socket] in
  readdirSync Sample.host "/app/two" = ["pair.js"] /\
  require Sample.host "/app/two/pair.js" = inr [Sample.a; Sample.b] /\
  result_of bound = Ok tt /\
  listeners (state_of bound) !! Sample.server =
    Some [mkListener 0 [Sample.a; Sample.b; Sample.a; Sample.b]] /\
  emit_connection Sample.host Sample.server Sample.socket (state_of bound) =
    (Ok tt, state_of bound,
     [ECall Sample.a args; ECall Sample.b args; ECall Sample.a args; ECall Sample.b args]).
Proof. cbn zeta. repeat split; vm_compute; reflexivity. Qed.

(** C5, at a file exporting an ordinary function [a] and then a class
    [Chat] with a [connection] method: one instance is made, but the
    listener's array is [a; Chat; a; bound]; a connection event calls
    [a], then calls the constructor [Chat] as a function, which raises,
    and the bound method of the instance is never reached. *)
Theorem C5_class_after_a_function_is_never_called :
  let script := [OpWhen 0 "mixed"; OpInto 0 Sample.server] in
  let bound := run_ops Sample.host script (world_of (new_Loader Sample.quiet)) in
  let fired := emit_connection Sample.host Sample.server Sample.socket (state_of bound) in
  require Sample.host "/app/mixed/mixed.js" = inr [Sample.a; Sample.Chat] /\
  cd_connection (class_def Sample.host 3) = Some Sample.chat_connection /\
  result_of bound = Ok tt /\
  instances (state_of bound) = [mkInstance 3 ∅] /\
  listeners (state_of bound) !! Sample.server =
    Some [mkListener 0 [Sample.a; Sample.Chat; Sample.a; VBound 0]] /\
  result_of fired = Throw (class_called_without_new "Chat") /\
  trace_of fired = [ECall Sample.a [VServer Sample.server; Sample.socket]] /\
  instances (state_of fired) = [mkInstance 3 ∅].
Proof. cbn zeta. repeat split; vm_compute; reflexivity. Qed.

(** ** The same properties on the sample application *)

Lemma when_appends_accepted_witness :
  readdirSync Sample.host "/app/handlers" = ["a.js"; ".hidden.js"; "notes.txt"; "b.mjs"] /\
  result_of (when Sample.host "handlers" (new_Loader Sample.quiet)) = Ok tt /\
  files (state_of (when Sample.host "handlers" (new_Loader Sample.quiet))) =
    ["/app/handlers/a.js"; "/app/handlers/b.mjs"].
Proof.
  split; [reflexivity|].
  refine (when_appends_accepted Sample.host "handlers" (new_Loader Sample.quiet)
            eq_refl eq_refl _).
  repeat constructor; discriminate.
Defined.


Lemma single_class_module_reuses_its_instance_witness :
  let w := world_of (mkLoader Sample.quiet [] ["/app/chat/chat.js"]) in
  let bound := into Sample.host 0 Sample.server w in
  let e1 := emit_connection Sample.host Sample.server (VSocket 1) (state_of bound) in
  let e2 := emit_connection Sample.host Sample.server (VSocket 2) (state_of e1) in
  instances (state_of bound) = [mkInstance 3 ∅] /\
  listeners (state_of bound) !! Sample.server = Some [mkListener 0 [VBound 0]] /\
  (exists inst, instances (state_of e1) = [inst] /\
                i_props inst !! "count" = Some (VNum 1) /\
                i_props inst !! "seen" = Some (VSocket 1)) /\
  (exists inst, instances (state_of e2) = [inst] /\
                i_props inst !! "count" = Some (VNum 2) /\
                i_props inst !! "seen" = Some (VSocket 2)).
Proof.
  cbn zeta.
  destruct (single_class_module_reuses_its_instance Sample.host 0 Sample.server
              (world_of (mkLoader Sample.quiet [] ["/app/chat/chat.js"]))
              (mkLoader Sample.quiet [] ["/app/chat/chat.js"]) "/app/chat/chat.js" 3
              "class Chat { connection (io, socket) { this.seen = socket; this.count = (this.count || 0) + 1 } }"
              ∅ Sample.chat_body (VSocket 1) (VSocket 2)
              eq_refl eq_refl eq_refl eq_refl eq_refl eq_refl eq_refl) as (_ & A & B & E1 & E2).
  split; [exact A|]. split; [exact B|].
  rewrite E2, E1. cbn [state_of fst snd instances set_instances app].
  split; eexists; (split; [reflexivity|]); split; vm_compute; reflexivity.
Defined.

(** ** More on the scan: which entries are kept *)

Lemma append_cons c (s t : string) : (String c s ++ t)%string = String c (s ++ t)%string.
Proof. reflexivity. Qed.

Lemma append_empty_l (t : string) : ("" ++ t)%string = t.
Proof. reflexivity. Qed.

Lemma dot_free_append (p q : string) :
  dot_free (p ++ q)%string = dot_free p && dot_free q.
Proof.
  induction p as [|c p IH]; [reflexivity|].
  rewrite append_cons. cbn [dot_free]. rewrite IH. apply andb_assoc.
Qed.

Lemma ends_with_dot_stem p :
  ends_with_dot p = true -> exists stem : string, p = (stem ++ ".")%string.
Proof.
  induction p as [|c p IH]; [discriminate|].
  destruct p as [|c' p'].
  - cbn [ends_with_dot]. intros H. apply bool_decide_eq_true in H as ->. exists "". reflexivity.
  - intros H. destruct (IH H) as [stem ->]. exists (String c stem). reflexivity.
Qed.

Lemma regex_exec_extension_dot_free e :
  dot_free e = true -> e <> "" -> regex_exec_extension e = Some e.
Proof.
  intros D N. destruct e as [|c e]; [congruence|].
  cbn [regex_exec_extension]. rewrite D. reflexivity.
Qed.

Lemma regex_exec_extension_after_dot (stem e : string) :
  dot_free e = true -> e <> "" ->
  regex_exec_extension (stem ++ "." ++ e)%string = Some e.
Proof.
  intros D N. induction stem as [|c stem IH].
  - rewrite append_empty_l. change ("." ++ e)%string with (String "." e).
    cbn [regex_exec_extension dot_free]. unfold ascii_eqb at 1.
    rewrite bool_decide_true by reflexivity. cbn [negb andb].
    apply regex_exec_extension_dot_free; assumption.
  - rewrite append_cons. cbn [regex_exec_extension].
    replace (dot_free (String c (stem ++ "." ++ e))) with false; [exact IH|].
    symmetry. cbn [dot_free]. rewrite dot_free_append.
    change ("." ++ e)%string with (String "." e). cbn [dot_free]. unfold ascii_eqb at 2.
    rewrite bool_decide_true by reflexivity. cbn [negb andb].
    rewrite andb_false_r. apply andb_false_r.
Qed.

Lemma accepted_iff exts name : accepted exts name = true <-> kept_name exts name.
Proof.
  unfold accepted, kept_name, includes. split.
  - destruct (regex_exec_extension name) as [e|] eqn:E; [|discriminate].
    intros H. apply andb_true_iff in H as [Hin Hdot].
    apply bool_decide_eq_true in Hin. apply negb_true_iff in Hdot.
    split; [exact Hdot|]. exists e.
    destruct (regex_exec_extension_Some _ _ E) as (D & N & p & -> & Hp).
    split; [exact Hin|]. split; [exact D|]. split; [exact N|].
    destruct Hp as [->|Hp]; [left; reflexivity|].
    destruct (ends_with_dot_stem _ Hp) as [stem ->]. right. exists stem.
    clear. induction stem as [|c stem IH]; [reflexivity|].
    rewrite !append_cons. f_equal. exact IH.
  - intros (Hdot & ext & Hin & D & N & Hname).
    assert (E : regex_exec_extension name = Some ext).
    { destruct Hname as [->|[stem ->]].
      - now apply regex_exec_extension_dot_free.
      - now apply regex_exec_extension_after_dot. }
    rewrite E, Hdot. rewrite bool_decide_true by exact Hin. reflexivity.
Qed.

Section ScanMore.

Context (host : Host).

(** In a directory whose entries all have an extension, the files a
    scan appends are exactly the joined paths of the entries whose name
    is kept: not starting with a dot, and either equal to an accepted
    dot-free extension or ending with a dot followed by one. An accepted
    extension that holds a dot (such as [d.ts]) therefore matches
    nothing, and a file named like an extension (such as [js]) is kept. *)
Theorem scan_appends_exactly_the_kept_names dirname l :
  let location := path_join host (cwd (options l)) dirname in
  existsSync host location = true ->
  isDirectory host location = true ->
  Forall (fun n => regex_exec_extension n <> None) (readdirSync host location) ->
  exists more,
    files (state_of (when host dirname l)) = files l ++ more /\
    forall f,
      f ∈ more <->
      exists name, name ∈ readdirSync host location /\
                   kept_name (extensions (options l)) name /\
                   f = path_join host location name.
Proof.
  cbn zeta. intros Hex Hdir Hall. rewrite when_eq. cbn zeta.
  rewrite Hex, Hdir. cbn [negb]. rewrite (when_loop_accepts host _ _ l Hall).
  cbn [state_of fst snd files set_files]. eexists. split; [reflexivity|].
  intros f. rewrite list_elem_of_In, in_map_iff. split.
  - intros (name & <- & Hin). apply filter_In in Hin as [Hin Hacc].
    exists name. split; [now apply list_elem_of_In|]. split; [|reflexivity].
    now apply accepted_iff.
  - intros (name & Hin & Hk & ->). exists name. split; [reflexivity|].
    apply filter_In. split; [now apply list_elem_of_In|]. now apply accepted_iff.
Qed.

Lemma when_loop_stops location pre : forall bad post l,
  Forall (fun n => regex_exec_extension n <> None) pre ->
  regex_exec_extension bad = None ->
  when_loop host location (pre ++ bad :: post) l =
  (Throw null_not_iterable,
   set_files (files l ++ map (path_join host location)
                             (List.filter (accepted (extensions (options l))) pre)) l,
   if_verbose (verbose (options l)) (concat (map (scan_message (extensions (options l))) pre))).
Proof.
  induction pre as [|n pre IH]; intros bad post l Hall Hbad.
  - cbn [app]. rewrite when_loop_cons, Hbad. cbn. rewrite app_nil_r, set_files_id.
    unfold if_verbose. destruct (verbose _); reflexivity.
  - inversion Hall as [|? ? Hn Hrest]; subst. cbn [app]. rewrite when_loop_cons.
    destruct (regex_exec_extension n) eqn:E; [|congruence]. cbn zeta.
    cbn [List.filter map concat].
    destruct (accepted (extensions (options l)) n) eqn:Acc.
    + rewrite (IH bad post _ Hrest Hbad).
      cbn [result_of state_of trace_of fst snd options set_files files].
      rewrite set_files_set_files. cbn [map]. rewrite <- app_assoc. cbn [app].
      f_equal. unfold if_verbose. destruct (verbose (options l)); reflexivity.
    + rewrite (IH bad post _ Hrest Hbad). cbn [result_of state_of trace_of fst snd].
      f_equal. unfold if_verbose. destruct (verbose (options l)); reflexivity.
Qed.

(** When the listing holds an entry without extension the scan raises at
    the first such entry and nothing is rolled back: the accepted entries
    before it stay appended (and their log lines stay emitted), the
    entries after it are never looked at. *)
Theorem when_raise_keeps_the_entries_before dirname l pre bad post :
  let location := path_join host (cwd (options l)) dirname in
  existsSync host location = true ->
  isDirectory host location = true ->
  readdirSync host location = pre ++ bad :: post ->
  Forall (fun n => regex_exec_extension n <> None) pre ->
  regex_exec_extension bad = None ->
  when host dirname l =
  (Throw null_not_iterable,
   set_files (files l ++ map (path_join host location)
                             (List.filter (accepted (extensions (options l))) pre)) l,
   if_verbose (verbose (options l)) (concat (map (scan_message (extensions (options l))) pre))).
Proof.
  cbn zeta. intros Hex Hdir Hls Hall Hbad. rewrite when_eq. cbn zeta.
  rewrite Hex, Hdir, Hls. cbn [negb]. now apply when_loop_stops.
Qed.

Lemma when_loop_frame location names : forall l,
  let r := when_loop host location names l in
  options (state_of r) = options l /\
  extraArguments (state_of r) = extraArguments l /\
  (exists more, files (state_of r) = files l ++ more) /\
  Forall (fun e => is_log e = true) (trace_of r) /\
  (verbose (options l) = false -> trace_of r = []).
Proof.
  induction names as [|n names IH]; intros l; cbn zeta.
  - cbn. repeat split; try constructor. exists []. now rewrite app_nil_r.
  - rewrite when_loop_cons. destruct (regex_exec_extension n) as [e|] eqn:E.
    + cbn zeta. cbn [state_of trace_of fst snd].
      assert (Hmsg : Forall (fun e => is_log e = true)
                       (if_verbose (verbose (options l))
                          (scan_message (extensions (options l)) n))).
      { unfold if_verbose, scan_message. rewrite E.
        destruct (verbose (options l)); [|constructor].
        destruct (negb _); [repeat constructor|].
        destruct (starts_with_dot n); repeat constructor. }
      destruct (accepted (extensions (options l)) n).
      * destruct (IH (set_files (files l ++ [path_join host location n]) l))
          as (A & B & [more C] & D & F).
        cbn [options extraArguments files set_files] in *.
        split; [exact A|]. split; [exact B|].
        split; [exists ([path_join host location n] ++ more); rewrite C, app_assoc; reflexivity|].
        split; [apply Forall_app; split; assumption|].
        intros Hv. rewrite (F Hv), Hv. reflexivity.
      * destruct (IH l) as (A & B & C & D & F).
        split; [exact A|]. split; [exact B|]. split; [exact C|].
        split; [apply Forall_app; split; assumption|].
        intros Hv. rewrite (F Hv), Hv. reflexivity.
    + cbn. repeat split; try constructor. exists []. now rewrite app_nil_r.
Qed.

(** Whatever the directory holds and however the scan ends (also when it
    raises), [when] never touches the options or the extra arguments,
    never removes or reorders a discovered file (the old list is a prefix
    of the new one), emits nothing but log lines, and emits nothing at all
    when [verbose] is off. *)
Theorem when_only_appends_files dirname l :
  let r := when host dirname l in
  options (state_of r) = options l /\
  extraArguments (state_of r) = extraArguments l /\
  (exists more, files (state_of r) = files l ++ more) /\
  Forall (fun e => is_log e = true) (trace_of r) /\
  (verbose (options l) = false -> trace_of r = []).
Proof.
  cbn zeta. rewrite when_eq. cbn zeta.
  assert (Hsoft : forall msg,
    options l = options l /\ extraArguments l = extraArguments l /\
    (exists more, files l = files l ++ more) /\
    Forall (fun e => is_log e = true) (if_verbose (verbose (options l)) [ELog LError msg]) /\
    (verbose (options l) = false ->
     if_verbose (verbose (options l)) [ELog LError msg] = [])).
  { intros msg. split; [reflexivity|]. split; [reflexivity|].
    split; [exists []; now rewrite app_nil_r|].
    split; [unfold if_verbose; destruct (verbose _); repeat constructor|].
    intros ->. reflexivity. }
  destruct (existsSync host _); cbn [negb]; [|apply Hsoft].
  destruct (isDirectory host _); cbn [negb]; [|apply Hsoft].
  apply when_loop_frame.
Qed.

(** Scans chain: two scans of directories whose entries all have an
    extension leave the accepted entries of the first directory followed
    by those of the second, after what was there before. *)
Theorem when_twice_accumulates dirname1 dirname2 l :
  let location1 := path_join host (cwd (options l)) dirname1 in
  let location2 := path_join host (cwd (options l)) dirname2 in
  let keep location :=
    map (path_join host location)
        (List.filter (accepted (extensions (options l))) (readdirSync host location)) in
  existsSync host location1 = true -> isDirectory host location1 = true ->
  existsSync host location2 = true -> isDirectory host location2 = true ->
  Forall (fun n => regex_exec_extension n <> None) (readdirSync host location1) ->
  Forall (fun n => regex_exec_extension n <> None) (readdirSync host location2) ->
  let r := (do! when host dirname1 in when host dirname2) l in
  result_of r = Ok tt /\
  state_of r = set_files (files l ++ keep location1 ++ keep location2) l.
Proof.
  cbn zeta. intros E1 D1 E2 D2 A1 A2. unfold bind.
  rewrite (when_eq host dirname1 l). cbn zeta. rewrite E1, D1. cbn [negb].
  rewrite (when_loop_accepts host _ _ l A1).
  rewrite when_eq. cbn zeta. cbn [options set_files].
  rewrite E2, D2. cbn [negb].
  rewrite (when_loop_accepts host _ _ _ A2).
  cbn [result_of state_of fst snd options set_files files].
  split; [reflexivity|]. rewrite <- app_assoc. reflexivity.
Qed.

End ScanMore.

(** ** More on the bind: what it registers, rejects and instantiates *)

Lemma assign_index_of_bound_cases i r (arr : list value) q x :
  assign_index_of i (VBound r) arr !! q = Some x -> x = VBound r \/ arr !! q = Some x.
Proof.
  unfold assign_index_of. destruct (index_of i arr) as [j|]; [|now right].
  destruct (decide (j = q)) as [->|Hne].
  - destruct (decide (q < length arr)) as [Hlt|Hge].
    + rewrite list_lookup_insert_eq by exact Hlt. intros [= <-]. now left.
    + rewrite list_insert_ge by lia. now right.
  - rewrite list_lookup_insert_ne by exact Hne. now right.
Qed.

Lemma drop_assign_index_of i v (arr : list value) idx x :
  arr !! idx = Some x -> x = i ->
  drop (S idx) (assign_index_of i v arr) = drop (S idx) arr.
Proof.
  intros Hx ->. destruct (index_of_lookup _ _ _ Hx) as (j & Hj & _ & Hle).
  unfold assign_index_of. rewrite Hj. apply drop_insert_lt. lia.
Qed.

Section BindMore.

Context (host : Host).

(** A successful bind appends exactly one listener, capturing this
    facade, to the listeners of that server; a bind that raises appends
    none. Either way the listeners of every other server and all the
    facade objects are as before, no handler is called, and nothing is
    logged when [verbose] is off. *)
Theorem into_registers_one_listener_or_none this server w l :
  loaders w !! this = Some l ->
  let r := into host this server w in
  loaders (state_of r) = loaders w /\
  (forall other, other <> server -> listeners (state_of r) !! other = listeners w !! other) /\
  Forall (fun e => is_log e = true) (trace_of r) /\
  (verbose (options l) = false -> trace_of r = []) /\
  match result_of r with
  | Ok _ =>
      exists fns,
        listeners (state_of r) !! server =
          Some (default [] (listeners w !! server) ++ [mkListener this fns])
  | Throw _ => listeners (state_of r) !! server = listeners w !! server
  end.
Proof.
  intros Hl. cbn zeta. rewrite (into_eq _ _ _ _ _ Hl). cbn zeta.
  destruct (into_files_frame host this l (files l) [] w Hl) as (A & B & _ & D & E).
  destruct (into_files host this (files l) [] w) as [[[fns|e] s] t];
    cbn [result_of state_of trace_of fst snd loaders listeners set_listeners] in *.
  - split; [exact A|]. split.
    { intros other Hne. rewrite lookup_insert_ne by congruence. now rewrite B. }
    split; [exact D|]. split; [exact E|].
    exists fns. rewrite lookup_insert_eq, B. reflexivity.
  - split; [exact A|]. split; [intros; now rewrite B|].
    split; [exact D|]. split; [exact E|]. now rewrite B.
Qed.

Lemma bind_failure_non_function v :
  is_function v = false -> bind_failure host v = Some not_a_function_export.
Proof. destruct v; try reflexivity; discriminate. Qed.

Lemma bindable_no_failure v : bindable host v = true -> bind_failure host v = None.
Proof.
  destruct v as [| | | | |id src k|r]; try discriminate; [|reflexivity].
  intros Hb. cbn [bind_failure]. destruct (class_shaped src) eqn:Hs; [|reflexivity].
  destruct (bindable_class host _ _ _ Hb Hs) as (-> & [props ->] & [->|[body ->]]);
    reflexivity.
Qed.

(** The loop raises at the first export that cannot be bound, with that
    export's error. *)
Lemma into_exports_first_failure this name l n : forall idx exps fns w p v e,
  loaders w !! this = Some l ->
  exps !! p = Some v ->
  bind_failure host v = Some e ->
  (forall q x, idx <= q < p -> exps !! q = Some x -> bindable host x = true) ->
  idx <= p < idx + n ->
  result_of (into_exports host this name n idx exps fns w) = Throw e.
Proof.
  induction n as [|n IH]; intros idx exps fns w p v e Hl Hp Hv Hgood Hrange; [lia|].
  destruct (lookup_lt_is_Some_2 exps idx) as [i Hi].
  { apply lookup_lt_Some in Hp. lia. }
  rewrite (into_exports_S host this name n idx exps fns w l i Hl Hi). cbn zeta.
  destruct (decide (p = idx)) as [->|Hne].
  - assert (i = v) as -> by congruence.
    destruct v as [| | | | |id src k|r]; cbn [bind_failure] in Hv;
      try (injection Hv as <-; reflexivity); [|discriminate].
    destruct (class_shaped src); [|discriminate].
    destruct k; [injection Hv as <-; reflexivity|].
    destruct (cd_construct (class_def host id)) as [e'|props];
      [injection Hv as <-; reflexivity|].
    destruct (cd_connection (class_def host id)) as [m|]; [|discriminate].
    destruct m as [body| | |]; cbn [bound] in *;
      try discriminate; injection Hv as <-; reflexivity.
  - assert (Hi' : bindable host i = true) by (apply (Hgood idx i); [lia|exact Hi]).
    assert (Hrec : forall exps' w' before,
      loaders w' = loaders w -> exps' !! p = Some v ->
      (forall q x, S idx <= q < p -> exps' !! q = Some x -> bindable host x = true) ->
      result_of (result_of (into_exports host this name n (S idx) exps' (fns ++ exps') w'),
                 state_of (into_exports host this name n (S idx) exps' (fns ++ exps') w'),
                 before ++ if_verbose (verbose (options l)) [ELog LInfo ("loaded: " ++ name)] ++
                 trace_of (into_exports host this name n (S idx) exps' (fns ++ exps') w')) =
      Throw e).
    { intros exps' w' before HL Hp' Hgood'. cbn [result_of fst].
      apply (IH (S idx) exps' (fns ++ exps') w' p v e); try assumption; [|lia].
      rewrite HL. exact Hl. }
    assert (Hkeep : forall q x, S idx <= q < p -> exps !! q = Some x -> bindable host x = true)
      by (intros q x Hq; apply Hgood; lia).
    destruct i as [| | | | |id src k|r]; try discriminate.
    + destruct (class_shaped src) eqn:Hs.
      * destruct (bindable_class host _ _ _ Hi' Hs) as (-> & [props ->] & [Hcd|[body Hcd]]);
          rewrite Hcd.
        -- apply Hrec; [reflexivity|exact Hp|exact Hkeep].
        -- cbn [bound]. apply Hrec; [reflexivity| |].
           ++ apply assign_index_of_other; [exact Hp|]. intros ->.
              rewrite (bindable_no_failure _ Hi') in Hv. discriminate.
           ++ intros q x Hq Hx. apply assign_index_of_bound_cases in Hx as [->|Hx];
                [reflexivity|]. now apply (Hkeep q).
      * apply Hrec; [reflexivity|exact Hp|exact Hkeep].
    + apply Hrec; [reflexivity|exact Hp|exact Hkeep].
Qed.

Lemma into_files_first_failure this l pre : forall file post good v rest e fns w,
  loaders w !! this = Some l ->
  forallb (module_ok host) pre = true ->
  require host file = inr (good ++ v :: rest) ->
  forallb (bindable host) good = true ->
  bind_failure host v = Some e ->
  result_of (into_files host this (pre ++ file :: post) fns w) = Throw e.
Proof.
  induction pre as [|p pre IH]; intros file post good v rest e fns w Hl Hok Hreq Hgood Hv.
  - cbn [app]. rewrite (into_files_cons _ _ _ _ _ _ _ Hl), Hreq. cbn zeta.
    rewrite (into_exports_first_failure this _ l _ 0 _ fns w (length good) v e Hl).
    + reflexivity.
    + apply list_lookup_middle. reflexivity.
    + exact Hv.
    + intros q x Hq Hx. rewrite lookup_app_l in Hx by lia.
      rewrite forallb_forall in Hgood. apply Hgood, list_elem_of_In, list_elem_of_lookup. eauto.
    + rewrite length_app. cbn [length]. lia.
  - cbn [forallb] in Hok. apply andb_true_iff in Hok as [Hp Hpre].
    cbn [app]. rewrite (into_files_cons _ _ _ _ _ _ _ Hl). unfold module_ok in Hp.
    destruct (require host p) as [message|exps]; [discriminate|]. cbn zeta.
    destruct (into_exports_ok host this (loaded_name host l p) l (length exps) 0 exps fns w Hl Hp)
      as [fns' Hr].
    destruct (into_exports_frame host this (loaded_name host l p) l (length exps) 0 exps fns w Hl)
      as (A & _).
    rewrite Hr. cbn [result_of fst]. apply (IH file post good v rest e); try assumption.
    rewrite A. exact Hl.
Qed.

(** An export that is not a function makes the bind raise
    [module requires an function] when the loop reaches it: the files
    before it and the exports before it in its module being in order, no
    listener is registered, whatever comes after it. *)
Theorem into_rejects_a_non_function_export this server w l pre file post good v rest :
  loaders w !! this = Some l ->
  files l = pre ++ file :: post ->
  forallb (module_ok host) pre = true ->
  require host file = inr (good ++ v :: rest) ->
  forallb (bindable host) good = true ->
  is_function v = false ->
  let r := into host this server w in
  result_of r = Throw (JsError "module requires an function") /\
  listeners (state_of r) = listeners w /\
  loaders (state_of r) = loaders w.
Proof.
  intros Hl Hfiles Hok Hreq Hgood Hv. cbn zeta.
  assert (Hr : result_of (into host this server w) = Throw not_a_function_export).
  { rewrite (into_eq _ _ _ _ _ Hl). cbn zeta. rewrite Hfiles.
    rewrite (into_files_first_failure this l pre file post good v rest _ [] w Hl Hok Hreq Hgood
               (bind_failure_non_function _ Hv)).
    reflexivity. }
  split; [exact Hr|].
  apply (into_raises_registers_nothing host this server w l Hl). rewrite Hr. reflexivity.
Qed.

(** A class-shaped export that cannot be bound makes the bind raise when
    the loop reaches it, the files before it and the exports before it in
    its module being in order: what its constructor throws, or else the
    TypeError of binding a [connection] that is no method, is raised as
    it is (the instantiation is outside the [try] that wraps [require]),
    and no listener is registered, whatever comes after it. *)
Theorem into_raises_what_a_class_export_raises
    this server w l pre file post good id src rest e :
  loaders w !! this = Some l ->
  files l = pre ++ file :: post ->
  forallb (module_ok host) pre = true ->
  require host file = inr (good ++ VFunc id src Ctor :: rest) ->
  forallb (bindable host) good = true ->
  class_shaped src = true ->
  match cd_construct (class_def host id) with
  | inl thrown => e = thrown
  | inr _ => exists m, cd_connection (class_def host id) = Some m /\ bound 0 m = inl e
  end ->
  let r := into host this server w in
  result_of r = Throw e /\
  listeners (state_of r) = listeners w /\
  loaders (state_of r) = loaders w.
Proof.
  intros Hl Hfiles Hok Hreq Hgood Hs He. cbn zeta.
  assert (Hv : bind_failure host (VFunc id src Ctor) = Some e).
  { cbn [bind_failure]. rewrite Hs.
    destruct (cd_construct (class_def host id)) as [thrown|props]; [now subst|].
    destruct He as (m & -> & ->). reflexivity. }
  assert (Hr : result_of (into host this server w) = Throw e).
  { rewrite (into_eq _ _ _ _ _ Hl). cbn zeta. rewrite Hfiles.
    rewrite (into_files_first_failure this l pre file post good _ rest e [] w Hl Hok Hreq Hgood Hv).
    reflexivity. }
  split; [exact Hr|].
  apply (into_raises_registers_nothing host this server w l Hl). rewrite Hr. reflexivity.
Qed.

Lemma into_exports_instances this name l n : forall idx exps fns w,
  loaders w !! this = Some l ->
  forallb (bindable host) exps = true ->
  length exps <= idx + n ->
  length (instances (state_of (into_exports host this name n idx exps fns w))) =
  length (instances w) + count_class_shaped (drop idx exps).
Proof.
  induction n as [|n IH]; intros idx exps fns w Hl Hb Hlen.
  - rewrite drop_ge by lia. cbn. lia.
  - destruct (exps !! idx) as [i|] eqn:Hi.
    2:{ rewrite into_exports_end by exact Hi. apply lookup_ge_None_1 in Hi.
        rewrite drop_ge by lia. cbn. lia. }
    rewrite (into_exports_S host this name n idx exps fns w l i Hl Hi). cbn zeta.
    rewrite (drop_S _ _ _ Hi). unfold count_class_shaped. cbn [List.filter].
    assert (Hi' : bindable host i = true).
    { rewrite forallb_forall in Hb. apply Hb, list_elem_of_In, list_elem_of_lookup. eauto. }
    assert (Hrec : forall exps' w',
      loaders w' = loaders w -> forallb (bindable host) exps' = true ->
      length exps' = length exps -> drop (S idx) exps' = drop (S idx) exps ->
      length (instances (state_of (into_exports host this name n (S idx) exps' (fns ++ exps') w')))
      = length (instances w') + count_class_shaped (drop (S idx) exps)).
    { intros exps' w' HL Hb' Hlen' Hdrop. rewrite <- Hdrop.
      apply IH; [rewrite HL; exact Hl|exact Hb'|lia]. }
    destruct i as [| | | | |id src k|r]; try discriminate.
    + cbn [to_string]. destruct (class_shaped src) eqn:Hs.
      * destruct (bindable_class host _ _ _ Hi' Hs) as (-> & [props ->] & [Hcd|[body Hcd]]);
          rewrite Hcd; cbn [bound state_of fst snd].
        -- rewrite (Hrec exps (set_instances (instances w ++ [mkInstance id props]) w)
                      eq_refl Hb eq_refl eq_refl).
           cbn [instances set_instances length]. rewrite length_app.
           unfold count_class_shaped. cbn [length]. lia.
        -- rewrite (Hrec _ (set_instances (instances w ++ [mkInstance id props]) w) eq_refl
                      (forallb_bindable_assign _ _ _ _ Hb)
                      (length_assign_index_of _ _ _)
                      (drop_assign_index_of _ _ _ idx (VFunc id src Ctor) Hi eq_refl)).
           cbn [instances set_instances length]. rewrite length_app.
           unfold count_class_shaped. cbn [length]. lia.
      * cbn [state_of fst snd]. rewrite (Hrec exps w eq_refl Hb eq_refl eq_refl).
        unfold count_class_shaped. lia.
    + cbn [state_of fst snd to_string].
      change (class_shaped "function () { [native code] }") with false. cbn iota.
      rewrite (Hrec exps w eq_refl Hb eq_refl eq_refl). unfold count_class_shaped. lia.
Qed.

Lemma into_files_instances this l fs : forall fns w,
  loaders w !! this = Some l ->
  forallb (module_ok host) fs = true ->
  length (instances (state_of (into_files host this fs fns w))) =
  length (instances w) + count_class_shaped_files host fs.
Proof.
  induction fs as [|file rest IH]; intros fns w Hl Hok; [cbn; lia|].
  cbn [forallb] in Hok. apply andb_true_iff in Hok as [Hfile Hrest].
  rewrite (into_files_cons _ _ _ _ _ _ _ Hl). unfold module_ok in Hfile.
  cbn [count_class_shaped_files].
  destruct (require host file) as [message|exps]; [discriminate|]. cbn zeta.
  destruct (into_exports_ok host this (loaded_name host l file) l (length exps) 0 exps fns w Hl Hfile)
    as [fns' Hr].
  destruct (into_exports_frame host this (loaded_name host l file) l (length exps) 0 exps fns w Hl)
    as (A & _).
  pose proof (into_exports_instances this (loaded_name host l file) l (length exps) 0 exps fns w
                Hl Hfile (le_n _)) as Hcount.
  rewrite Hr. cbn [state_of fst snd]. rewrite IH; [|rewrite A; exact Hl|exact Hrest].
  rewrite Hcount. change (drop 0 exps) with exps. lia.
Qed.

(** When every module loads and every export can be bound (it is a
    function; one whose text is class-shaped is a real constructor, which
    returns, and the [connection] of its instance, if there is one, is a
    method), a bind creates exactly one instance per export whose text is
    class-shaped, with or without a [connection] method, and none for the
    other exports. *)
Theorem into_instantiates_each_class_shaped_export_once this server w l :
  loaders w !! this = Some l ->
  forallb (module_ok host) (files l) = true ->
  length (instances (state_of (into host this server w))) =
  length (instances w) + count_class_shaped_files host (files l).
Proof.
  intros Hl Hok. rewrite (into_eq _ _ _ _ _ Hl). cbn zeta.
  pose proof (into_files_instances this l (files l) [] w Hl Hok) as Hcount.
  destruct (into_files host this (files l) [] w) as [[[fns|e] s] t];
    cbn [result_of state_of trace_of fst snd instances set_listeners] in *; exact Hcount.
Qed.

Lemma into_files_without_exports this l fs : forall fns w,
  loaders w !! this = Some l ->
  Forall (fun file => require host file = inr []) fs ->
  into_files host this fs fns w = (Ok fns, w, []).
Proof.
  induction fs as [|file rest IH]; intros fns w Hl Hall; [reflexivity|].
  inversion Hall as [|? ? Hfile Hrest]; subst.
  rewrite (into_files_cons _ _ _ _ _ _ _ Hl), Hfile. cbn zeta.
  cbn [length into_exports]. unfold ret. cbn [result_of state_of trace_of fst snd app].
  rewrite (IH fns w Hl Hrest). reflexivity.
Qed.

(** A facade with no discovered file, or whose modules have no export
    to enumerate, still binds: the listener is registered with an empty
    handler array and nothing is logged, even with [verbose] on. On a
    server that had no listener, a connection event then returns without
    calling anything. *)
Theorem into_without_exports_registers_an_empty_listener this server socket w l :
  loaders w !! this = Some l ->
  Forall (fun file => require host file = inr []) (files l) ->
  let r := into host this server w in
  r = (Ok tt,
       set_listeners (<[server := default [] (listeners w !! server) ++ [mkListener this []]]>
                        (listeners w)) w,
       []) /\
  (listeners w !! server = None ->
   emit_connection host server socket (state_of r) = (Ok tt, state_of r, [])).
Proof.
  intros Hl Hall. cbn zeta. rewrite (into_eq _ _ _ _ _ Hl). cbn zeta.
  rewrite (into_files_without_exports this l (files l) [] w Hl Hall).
  cbn [result_of state_of trace_of fst snd]. split; [reflexivity|].
  intros Hnone. rewrite emit_connection_eq. cbn [listeners set_listeners].
  rewrite lookup_insert_eq, Hnone. reflexivity.
Qed.

(** When every module loads and every export can be bound (see
    [bindable]), binding the same facade twice to a server registers two
    listeners, one after the other: nothing is deduplicated. *)
Theorem into_twice_registers_two_listeners this server w l :
  loaders w !! this = Some l ->
  forallb (module_ok host) (files l) = true ->
  let r := run_ops host [OpInto this server; OpInto this server] w in
  result_of r = Ok tt /\
  exists fns1 fns2,
    listeners (state_of r) !! server =
      Some (default [] (listeners w !! server)
              ++ [mkListener this fns1; mkListener this fns2]).
Proof.
  intros Hl Hok. cbn zeta.
  assert (Hrun : exists fns1 fns2 s t,
    run_ops host [OpInto this server; OpInto this server] w = (Ok tt, s, t) /\
    listeners s !! server =
      Some (default [] (listeners w !! server)
              ++ [mkListener this fns1; mkListener this fns2])).
  { cbn [run_ops run_op]. unfold bind at 1.
    rewrite (into_eq _ _ _ _ _ Hl). cbn zeta.
    destruct (into_files_ok host this l (files l) [] w Hl Hok) as [fns1 Hr1].
    destruct (into_files_frame host this l (files l) [] w Hl) as (A1 & B1 & _).
    destruct (into_files host this (files l) [] w) as [[r1 s1] t1].
    cbn [result_of state_of trace_of fst snd] in *. subst r1.
    set (w1 := set_listeners _ s1).
    assert (Hl1 : loaders w1 !! this = Some l) by (cbn; rewrite A1; exact Hl).
    unfold bind at 1. rewrite (into_eq _ _ _ _ _ Hl1). cbn zeta.
    destruct (into_files_ok host this l (files l) [] w1 Hl1 Hok) as [fns2 Hr2].
    destruct (into_files_frame host this l (files l) [] w1 Hl1) as (A2 & B2 & _).
    destruct (into_files host this (files l) [] w1) as [[r2 s2] t2].
    cbn [result_of state_of trace_of fst snd] in *. subst r2.
    unfold ret. exists fns1, fns2. eexists. eexists. split; [reflexivity|].
    cbn [listeners set_listeners]. rewrite lookup_insert_eq, B2.
    unfold w1. cbn [listeners set_listeners]. rewrite lookup_insert_eq, B1.
    unfold default, from_option, Datatypes.id.
    rewrite <- app_assoc. reflexivity. }
  destruct Hrun as (fns1 & fns2 & s & t & -> & Hs).
  split; [reflexivity|]. exists fns1, fns2. exact Hs.
Qed.

(** A constructor whose text is not class-shaped (no white space, ASCII
    or Unicode, after [class]) is not recognised: as a module's only
    export it is bound as it is and no instance is made, so on a server
    without other listeners every connection event raises when it is
    called, before the class is entered. *)
Theorem unrecognised_class_is_bound_as_a_function this server socket w l file id src :
  loaders w !! this = Some l ->
  files l = [file] ->
  require host file = inr [VFunc id src Ctor] ->
  class_shaped src = false ->
  listeners w !! server = None ->
  let r := into host this server w in
  result_of r = Ok tt /\
  instances (state_of r) = instances w /\
  listeners (state_of r) !! server = Some [mkListener this [VFunc id src Ctor]] /\
  emit_connection host server socket (state_of r) =
    (Throw (class_called_without_new (cd_name (class_def host id))), state_of r, []).
Proof.
  intros Hl Hfiles Hreq Hshape Hnone. cbn zeta.
  rewrite (into_one_file _ _ _ _ _ _ Hl Hfiles), Hreq. cbn zeta. cbn [length].
  rewrite (into_exports_S host this _ 0 0 [VFunc id src Ctor] [] w l (VFunc id src Ctor) Hl eq_refl).
  cbn zeta. rewrite Hshape. cbn [into_exports]. unfold ret.
  cbn [result_of state_of trace_of fst snd app instances set_listeners listeners].
  rewrite Hnone. split; [reflexivity|]. split; [reflexivity|].
  split; [apply lookup_insert_eq|].
  rewrite emit_connection_eq. cbn [listeners set_listeners]. rewrite lookup_insert_eq.
  unfold default, from_option, Datatypes.id. cbn beta iota. cbn [app].
  rewrite emit_loop_single. cbn [lst_this lst_fns].
  rewrite (call_handlers_cons host this server socket l) by exact Hl. reflexivity.
Qed.

End BindMore.

(** ** More on the dispatch: what an event can and cannot do *)

Section DispatchMore.

Context (host : Host).

Lemma invoke_frame fn args w :
  let r := invoke host fn args w in
  loaders (state_of r) = loaders w /\
  listeners (state_of r) = listeners w /\
  i_class <$> instances (state_of r) = i_class <$> instances w /\
  Forall (fun e => is_log e = false) (trace_of r).
Proof.
  cbn zeta.
  assert (Hidle : forall (o : outcome unit),
    loaders (state_of (o, w, @nil event)) = loaders w /\
    listeners (state_of (o, w, @nil event)) = listeners w /\
    i_class <$> instances (state_of (o, w, @nil event)) = i_class <$> instances w /\
    Forall (fun e => is_log e = false) (trace_of (o, w, @nil event))).
  { intros o. repeat split. constructor. }
  destruct fn as [| | | | |id src k|r]; try apply Hidle.
  - destruct k; [|apply Hidle]. cbn. repeat split. repeat constructor.
  - cbn [invoke]. destruct (instances w !! r) as [inst|] eqn:Hi; [|apply Hidle].
    destruct (cd_connection (class_def host (i_class inst))) as [[body| | |]|];
      try apply Hidle.
    cbn [state_of trace_of fst snd loaders listeners instances set_instances].
    split; [reflexivity|]. split; [reflexivity|]. split; [|repeat constructor].
    rewrite list_fmap_insert. cbn [i_class]. apply list_insert_id.
    rewrite list_lookup_fmap, Hi. reflexivity.
Qed.

Lemma call_handlers_frame this server socket fns : forall w,
  let r := call_handlers host this server socket fns w in
  loaders (state_of r) = loaders w /\
  listeners (state_of r) = listeners w /\
  i_class <$> instances (state_of r) = i_class <$> instances w /\
  Forall (fun e => is_log e = false) (trace_of r).
Proof.
  induction fns as [|fn fns IH]; intros w; cbn zeta.
  - cbn. repeat split. constructor.
  - destruct (loaders w !! this) as [l|] eqn:Hl.
    + rewrite (call_handlers_cons host this server socket l fn fns w Hl).
      destruct (invoke_frame fn (VServer server :: socket :: extraArguments l) w)
        as (A & B & C & D).
      destruct (invoke host fn _ w) as [[[[]|e] w'] t];
        cbn [state_of trace_of fst snd] in *; [|repeat split; assumption].
      destruct (IH w') as (A' & B' & C' & D'). cbn zeta.
      cbn [state_of trace_of fst snd].
      split; [congruence|]. split; [congruence|]. split; [congruence|].
      apply Forall_app. split; assumption.
    + cbn [call_handlers]. unfold bind, on_this. rewrite Hl. cbn. repeat split. constructor.
Qed.

Lemma emit_loop_frame server socket ls : forall w,
  let r := emit_loop host server socket ls w in
  loaders (state_of r) = loaders w /\
  listeners (state_of r) = listeners w /\
  i_class <$> instances (state_of r) = i_class <$> instances w /\
  Forall (fun e => is_log e = false) (trace_of r).
Proof.
  induction ls as [|cb ls IH]; intros w; cbn zeta.
  - cbn. repeat split. constructor.
  - cbn [emit_loop]. unfold bind.
    destruct (call_handlers_frame (lst_this cb) server socket (lst_fns cb) w) as (A & B & C & D).
    destruct (call_handlers host (lst_this cb) server socket (lst_fns cb) w) as [[[[]|e] w'] t];
      cbn [state_of trace_of fst snd] in *; [|repeat split; assumption].
    destruct (IH w') as (A' & B' & C' & D').
    destruct (emit_loop host server socket ls w') as [[r s] t'].
    cbn [state_of trace_of fst snd] in *.
    split; [congruence|]. split; [congruence|]. split; [congruence|].
    apply Forall_app. split; assumption.
Qed.

Lemma call_handlers_plain_then this server socket l pre : forall rest w,
  loaders w !! this = Some l ->
  forallb (returns host (VServer server :: socket :: extraArguments l)) pre = true ->
  call_handlers host this server socket (pre ++ rest) w =
  (result_of (call_handlers host this server socket rest w),
   state_of (call_handlers host this server socket rest w),
   calls_of server socket (extraArguments l) pre
     ++ trace_of (call_handlers host this server socket rest w)).
Proof.
  induction pre as [|fn pre IH]; intros rest w Hl Hp.
  - cbn [app calls_of map]. destruct (call_handlers _ _ _ _ _ _) as [[r s] t]. reflexivity.
  - cbn [forallb] in Hp. apply andb_true_iff in Hp as [Hfn Hpre].
    cbn [app]. rewrite (call_handlers_cons host this server socket l fn _ w Hl).
    rewrite (invoke_returns host _ _ _ Hfn). cbn zeta. rewrite (IH rest w Hl Hpre).
    reflexivity.
Qed.

Lemma invoke_raises_at fn args e entered w :
  raises_at host args fn = Some (e, entered) ->
  invoke host fn args w = (Throw e, w, if entered then [ECall fn args] else []).
Proof.
  destruct fn as [| | | | |id src [|]|r]; cbn [raises_at invoke];
    try discriminate; try (intros [= <- <-]; reflexivity).
  destruct (fn_body host id args) as [e'|]; [|discriminate]. intros [= <- <-]. reflexivity.
Qed.

(** Handlers are not isolated from each other. When the handler array of
    the first listener holds, after some ordinary functions that return,
    a handler that raises at once (an ordinary function that throws, or a
    class, which cannot be called), the event calls those functions,
    raises what that handler raises, and calls neither the rest of the
    array nor any later listener. *)
Theorem emit_connection_stops_at_the_first_raise
    this server socket w l pre fn e entered post later :
  loaders w !! this = Some l ->
  listeners w !! server = Some (mkListener this (pre ++ fn :: post) :: later) ->
  let args := VServer server :: socket :: extraArguments l in
  forallb (returns host args) pre = true ->
  raises_at host args fn = Some (e, entered) ->
  let r := emit_connection host server socket w in
  result_of r = Throw e /\
  trace_of r =
    calls_of server socket (extraArguments l) pre ++ (if entered then [ECall fn args] else []).
Proof.
  intros Hl Hs. cbn zeta. intros Hp Hfn. rewrite emit_connection_eq, Hs.
  unfold default, from_option, Datatypes.id. cbn [emit_loop lst_this lst_fns].
  unfold bind. rewrite (call_handlers_plain_then this server socket l pre _ w Hl Hp).
  rewrite (call_handlers_cons host this server socket l _ post w Hl).
  rewrite (invoke_raises_at _ _ _ _ _ Hfn).
  cbn [result_of state_of trace_of fst snd]. split; reflexivity.
Qed.

Lemma on_this_other {A} this other (m : M Loader A) w :
  this <> other ->
  loaders (state_of (on_this this m w)) !! other = loaders w !! other.
Proof.
  intros Hne. unfold on_this. destruct (loaders w !! this) as [l|]; [|reflexivity].
  destruct (m l) as [[r l'] t]. cbn [state_of fst snd loaders set_loaders].
  apply list_lookup_insert_ne. exact Hne.
Qed.

Lemma into_loaders this server w :
  loaders (state_of (into host this server w)) = loaders w.
Proof.
  destruct (loaders w !! this) as [l|] eqn:Hl.
  - rewrite (into_eq host _ _ _ _ Hl). cbn zeta.
    destruct (into_files_frame host this l (files l) [] w Hl) as (A & _).
    destruct (result_of (into_files host this (files l) [] w)); exact A.
  - unfold into, bind, on_this. rewrite Hl. reflexivity.
Qed.

Lemma run_op_other o w other :
  op_this o <> Some other ->
  loaders (state_of (run_op host o w)) !! other = loaders w !! other.
Proof.
  intros Hne. destruct o as [this d|this xs|this server|server socket]; cbn [run_op op_this] in *.
  - apply on_this_other. congruence.
  - apply on_this_other. congruence.
  - now rewrite into_loaders.
  - rewrite emit_connection_eq.
    destruct (emit_loop_frame server socket (default [] (listeners w !! server)) w) as (A & _).
    now rewrite A.
Qed.

End DispatchMore.

(** ** Facades are separate objects *)

(** A script that never calls a method of the facade [other] leaves that
    facade exactly as it was, whatever it does with other facades and
    with the servers, and however it ends. *)
Theorem facades_do_not_share_state host os : forall w other,
  Forall (fun o => op_this o <> Some other) os ->
  loaders (state_of (run_ops host os w)) !! other = loaders w !! other.
Proof.
  induction os as [|o os IH]; intros w other Hall; [reflexivity|].
  inversion Hall as [|? ? Ho Hrest]; subst.
  cbn [run_ops]. unfold bind.
  pose proof (run_op_other host o w other Ho) as Hstep.
  destruct (run_op host o w) as [[[[]|e] w'] t]; cbn [state_of fst snd] in *; [|exact Hstep].
  pose proof (IH w' other Hrest) as Hnext.
  destruct (run_ops host os w') as [[r s] t']. cbn [state_of fst snd] in *. congruence.
Qed.

(** ** The name in the [loaded:] line *)

Lemma append_nil_r (s : string) : (s ++ "")%string = s.
Proof. induction s as [|c s IH]; [reflexivity|]. rewrite append_cons, IH. reflexivity. Qed.

Lemma append_snoc (s t : string) c :
  ((s ++ String c "") ++ t)%string = (s ++ String c t)%string.
Proof. induction s as [|d s IH]; [reflexivity|]. rewrite !append_cons, IH. reflexivity. Qed.

Lemma strip_prefix_append (p rest : string) : strip_prefix p (p ++ rest)%string = Some rest.
Proof.
  induction p as [|c p IH]; [reflexivity|].
  rewrite append_cons. cbn [strip_prefix]. unfold ascii_eqb.
  rewrite bool_decide_true by reflexivity. exact IH.
Qed.

Lemma split_go_skip sep (pre : string) : forall (s cur : string),
  split_go sep (pre ++ s)%string (String.length pre) cur = split_go sep s 0 cur.
Proof.
  induction pre as [|c pre IH]; intros s cur; [reflexivity|].
  rewrite append_cons. cbn [String.length split_go]. apply IH.
Qed.

Lemma split_go_no_occurrence sep (s : string) : forall cur : string,
  occurs sep s = false -> split_go sep s 0 cur = [(cur ++ s)%string].
Proof.
  induction s as [|c s IH]; intros cur H.
  - cbn. now rewrite append_nil_r.
  - cbn [occurs] in H. cbn [split_go].
    destruct (strip_prefix sep (String c s)); [discriminate|].
    rewrite (IH _ H), append_snoc. reflexivity.
Qed.

Lemma split_go_at_separator c sep' (rest cur : string) :
  split_go (String c sep') (String c sep' ++ rest)%string 0 cur =
  cur :: split_go (String c sep') rest 0 "".
Proof.
  rewrite append_cons. cbn [split_go].
  pose proof (strip_prefix_append (String c sep') rest) as H.
  rewrite append_cons in H. rewrite H.
  replace (String.length (String c sep') - 1) with (String.length sep')
    by (cbn [String.length]; lia).
  f_equal. apply split_go_skip.
Qed.

Lemma getRelativeTo_no_second_root l (rest : string) :
  cwd (options l) <> "" ->
  occurs (cwd (options l)) rest = false ->
  getRelativeTo l (cwd (options l) ++ rest)%string = ("." ++ rest)%string /\
  getRelativeTo l rest = ("." ++ rest)%string.
Proof.
  intros Hne Hocc. unfold getRelativeTo, js_split.
  destruct (cwd (options l)) as [|c root] eqn:Hcwd; [congruence|].
  rewrite split_go_at_separator, !(split_go_no_occurrence _ _ _ Hocc).
  split; reflexivity.
Qed.

(** [getRelativeTo] on a path that starts with the configured root and
    does not hold the root's text again gives a dot followed by the rest
    of the path; on a path that does not hold the root's text at all it
    gives a dot followed by the whole path. *)
Theorem getRelativeTo_drops_the_root l (rest : string) :
  cwd (options l) <> "" ->
  occurs (cwd (options l)) rest = false ->
  getRelativeTo l (cwd (options l) ++ rest)%string = ("." ++ rest)%string /\
  getRelativeTo l rest = ("." ++ rest)%string.
Proof. apply getRelativeTo_no_second_root. Qed.

Lemma split_go_single_last c (name : string) (x : string) : forall cur : string,
  occurs (String c "") name = false ->
  exists h t,
    split_go (String c "") (x ++ String c name)%string 0 cur = h :: t /\
    last t = Some name.
Proof.
  intros cur Hname. revert cur. induction x as [|d x IH]; intros cur.
  - rewrite append_empty_l.
    change (String c name) with (String c "" ++ name)%string.
    rewrite split_go_at_separator, (split_go_no_occurrence _ _ _ Hname).
    exists cur, [name]. split; reflexivity.
  - rewrite append_cons. cbn [split_go strip_prefix].
    destruct (ascii_eqb c d).
    + change (String.length (String c "") - 1) with 0.
      destruct (IH "") as (h & t & -> & Ht).
      exists cur, (h :: t). split; [reflexivity|].
      destruct t; [discriminate|]. exact Ht.
    + apply IH.
Qed.

(** With a one-character path separator, the name logged for a file
    below the root is the text after the file's last separator, when
    neither that text holds the separator nor the path below the root
    holds the root's text; for a path below the root that holds no
    separator at all the logged name is [undefined]. *)
Theorem loaded_name_is_the_last_segment host l c (dir name : string) :
  path_sep host = String c "" ->
  cwd (options l) <> "" ->
  occurs (cwd (options l)) (dir ++ String c name)%string = false ->
  occurs (String c "") name = false ->
  loaded_name host l (cwd (options l) ++ dir ++ String c name)%string = name /\
  (forall rest : string,
     occurs (cwd (options l)) rest = false ->
     occurs (String c "") ("." ++ rest)%string = false ->
     loaded_name host l (cwd (options l) ++ rest)%string = "undefined").
Proof.
  intros Hsep Hne Hocc Hname. unfold loaded_name. rewrite Hsep. split.
  - destruct (getRelativeTo_no_second_root l _ Hne Hocc) as [-> _].
    unfold js_split.
    change ("." ++ dir ++ String c name)%string
      with (String "." dir ++ String c name)%string.
    destruct (split_go_single_last c name (String "." dir) "" Hname) as (h & t & -> & Ht).
    change (drop 1 (h :: t)) with t. rewrite Ht. reflexivity.
  - intros rest Hrest Hnosep.
    destruct (getRelativeTo_no_second_root l _ Hne Hrest) as [-> _].
    unfold js_split. rewrite (split_go_no_occurrence _ _ _ Hnosep). reflexivity.
Qed.

(** ** What a bind logs, and the handler array for one export per file *)

Lemma if_verbose_app v (a b : list event) :
  if_verbose v (a ++ b) = if_verbose v a ++ if_verbose v b.
Proof. destruct v; reflexivity. Qed.

Section BindExactly.

Context (host : Host).

Lemma into_exports_trace this name l n : forall idx exps fns w,
  loaders w !! this = Some l ->
  forallb (bindable host) exps = true ->
  length exps <= idx + n ->
  trace_of (into_exports host this name n idx exps fns w) =
  if_verbose (verbose (options l)) (concat (map (export_lines host name) (drop idx exps))).
Proof.
  induction n as [|n IH]; intros idx exps fns w Hl Hb Hlen.
  - rewrite drop_ge by lia. cbn. unfold if_verbose. destruct (verbose _); reflexivity.
  - destruct (exps !! idx) as [i|] eqn:Hi.
    2:{ rewrite into_exports_end by exact Hi. apply lookup_ge_None_1 in Hi.
        rewrite drop_ge by lia. cbn. unfold if_verbose. destruct (verbose _); reflexivity. }
    rewrite (into_exports_S host this name n idx exps fns w l i Hl Hi). cbn zeta.
    rewrite (drop_S _ _ _ Hi). cbn [map concat]. rewrite if_verbose_app.
    assert (Hi' : bindable host i = true).
    { rewrite forallb_forall in Hb. apply Hb, list_elem_of_In, list_elem_of_lookup. eauto. }
    assert (Hrec : forall exps' w',
      loaders w' = loaders w -> forallb (bindable host) exps' = true ->
      length exps' = length exps -> drop (S idx) exps' = drop (S idx) exps ->
      trace_of (into_exports host this name n (S idx) exps' (fns ++ exps') w') =
      if_verbose (verbose (options l))
        (concat (map (export_lines host name) (drop (S idx) exps)))).
    { intros exps' w' HL Hb' Hlen' Hdrop. rewrite <- Hdrop.
      apply IH; [rewrite HL; exact Hl|exact Hb'|lia]. }
    unfold export_lines at 1. rewrite if_verbose_app.
    destruct i as [| | | | |id src k|r]; try discriminate.
    + cbn [class_without_connection].
      destruct (class_shaped src) eqn:Hs.
      * destruct (bindable_class host _ _ _ Hi' Hs) as (-> & [props ->] & [Hcd|[body Hcd]]);
          rewrite Hcd; cbn [andb bound trace_of snd].
        -- rewrite (Hrec exps (set_instances (instances w ++ [mkInstance id props]) w)
                      eq_refl Hb eq_refl eq_refl).
           rewrite bool_decide_true by reflexivity. rewrite <- !app_assoc. reflexivity.
        -- rewrite (Hrec _ (set_instances (instances w ++ [mkInstance id props]) w) eq_refl
                      (forallb_bindable_assign _ _ _ _ Hb) (length_assign_index_of _ _ _)
                      (drop_assign_index_of _ _ _ idx (VFunc id src Ctor) Hi eq_refl)).
           rewrite bool_decide_false by discriminate.
           destruct (verbose (options l)); reflexivity.
      * cbn [trace_of snd]. rewrite (Hrec exps w eq_refl Hb eq_refl eq_refl).
        destruct k; cbn [andb]; destruct (verbose (options l)); reflexivity.
    + cbn [trace_of snd class_without_connection].
      rewrite (Hrec exps w eq_refl Hb eq_refl eq_refl).
      destruct (verbose (options l)); reflexivity.
Qed.

Lemma into_files_trace this l fs : forall fns w,
  loaders w !! this = Some l ->
  forallb (module_ok host) fs = true ->
  trace_of (into_files host this fs fns w) =
  if_verbose (verbose (options l)) (concat (map (file_lines host l) fs)).
Proof.
  induction fs as [|file rest IH]; intros fns w Hl Hok.
  - cbn. unfold if_verbose. destruct (verbose _); reflexivity.
  - cbn [forallb] in Hok. apply andb_true_iff in Hok as [Hfile Hrest].
    rewrite (into_files_cons _ _ _ _ _ _ _ Hl). unfold module_ok in Hfile.
    cbn [map concat]. rewrite if_verbose_app. unfold file_lines at 1.
    destruct (require host file) as [message|exps]; [discriminate|]. cbn zeta.
    destruct (into_exports_ok host this (loaded_name host l file) l (length exps) 0 exps fns w
                Hl Hfile) as [fns' Hr].
    destruct (into_exports_frame host this (loaded_name host l file) l (length exps) 0 exps fns w
                Hl) as (A & _).
    pose proof (into_exports_trace this (loaded_name host l file) l (length exps) 0 exps fns w
                  Hl Hfile (le_n _)) as Ht.
    rewrite Hr. cbn [trace_of snd]. rewrite Ht, IH; [|rewrite A; exact Hl|exact Hrest].
    reflexivity.
Qed.

(** What a bind logs, exactly: when every module loads and every export
    can be bound (it is a function; one whose text is class-shaped is a
    real constructor, which returns, and the [connection] of its
    instance, if there is one, is a method), a verbose bind logs, file by
    file and export by export in enumeration order, the one line
    [loaded: <name>], preceded by the error line [cannot load route] for
    a class without [connection]; with [verbose] off it logs nothing. *)
Theorem into_logs_one_line_per_export this server w l :
  loaders w !! this = Some l ->
  forallb (module_ok host) (files l) = true ->
  trace_of (into host this server w) =
  if_verbose (verbose (options l)) (concat (map (file_lines host l) (files l))).
Proof.
  intros Hl Hok. rewrite (into_eq _ _ _ _ _ Hl). cbn zeta.
  pose proof (into_files_trace this l (files l) [] w Hl Hok) as Ht.
  destruct (into_files host this (files l) [] w) as [[[fns|e] s] t];
    cbn [result_of state_of trace_of fst snd] in *; exact Ht.
Qed.







End BindExactly.

(** ** The further properties on the second application *)

Lemma scan_appends_exactly_the_kept_names_witness :
  let l := new_Loader Demo.verbose_options in
  readdirSync Demo.host "/srv/app/rooms" = ["room.js"; "js"; ".env.js"; "room.d.ts"; "README"] /\
  exists more,
    files (state_of (when Demo.host "rooms" l)) = files l ++ more /\
    "/srv/app/rooms/js" ∈ more.
Proof.
  cbn zeta. split; [reflexivity|].
  destruct (scan_appends_exactly_the_kept_names Demo.host "rooms"
              (new_Loader Demo.verbose_options) eq_refl eq_refl
              ltac:(repeat constructor; discriminate)) as (more & Hfiles & Hmore).
  exists more. split; [exact Hfiles|]. apply Hmore. exists "js".
  split; [vm_compute; repeat constructor|]. split; [|reflexivity].
  split; [reflexivity|]. exists "js".
  split; [repeat constructor|]. split; [reflexivity|]. split; [discriminate|]. now left.
Defined.

Lemma when_raise_keeps_the_entries_before_witness :
  let l := new_Loader Demo.silent_options in
  when Demo.host "odd" l =
  (Throw null_not_iterable,
   set_files ["/srv/app/odd/config.js"; "/srv/app/odd/empty.js"; "/srv/app/odd/anonymous.js"] l,
   []).
Proof.
  exact (when_raise_keeps_the_entries_before Demo.host "odd" (new_Loader Demo.silent_options)
           ["config.js"; "empty.js"; "anonymous.js"] "stop." ["late.js"]
           eq_refl eq_refl eq_refl ltac:(repeat constructor; discriminate) eq_refl).
Defined.

Lemma when_twice_accumulates_witness :
  let l := new_Loader Demo.silent_options in
  state_of ((do! when Demo.host "rooms" in when Demo.host "games") l) =
  set_files ["/srv/app/rooms/room.js"; "/srv/app/rooms/js";
             "/srv/app/games/ping.mjs"; "/srv/app/games/pong.js"] l.
Proof.
  exact (proj2 (when_twice_accumulates Demo.host "rooms" "games" (new_Loader Demo.silent_options)
                  eq_refl eq_refl eq_refl eq_refl
                  ltac:(repeat constructor; discriminate)
                  ltac:(repeat constructor; discriminate))).
Defined.

Lemma into_registers_one_listener_or_none_witness :
  let l := mkLoader Demo.silent_options [] ["/srv/app/games/ping.mjs"; "/srv/app/odd/config.js"] in
  let r := into Demo.host 0 7 (world_of l) in
  loaders (state_of r) = [l] /\
  listeners (state_of r) !! 7 = None /\
  trace_of r = [].
Proof.
  cbn zeta.
  destruct (into_registers_one_listener_or_none Demo.host 0 7
              (world_of (mkLoader Demo.silent_options []
                           ["/srv/app/games/ping.mjs"; "/srv/app/odd/config.js"]))
              (mkLoader Demo.silent_options []
                           ["/srv/app/games/ping.mjs"; "/srv/app/odd/config.js"]) eq_refl)
    as (A & _ & _ & D & E).
  split; [exact A|]. split; [|exact (D eq_refl)].
  revert E. vm_compute. exact (fun H => H).
Defined.

Lemma into_rejects_a_non_function_export_witness :
  let l := mkLoader Demo.verbose_options [] ["/srv/app/games/ping.mjs"; "/srv/app/odd/config.js";
                                             "/srv/app/games/pong.js"] in
  let r := into Demo.host 0 7 (world_of l) in
  result_of r = Throw (JsError "module requires an function") /\
  listeners (state_of r) = ∅.
Proof.
  cbn zeta.
  destruct (into_rejects_a_non_function_export Demo.host 0 7
              (world_of (mkLoader Demo.verbose_options []
                 ["/srv/app/games/ping.mjs"; "/srv/app/odd/config.js"; "/srv/app/games/pong.js"]))
              (mkLoader Demo.verbose_options []
                 ["/srv/app/games/ping.mjs"; "/srv/app/odd/config.js"; "/srv/app/games/pong.js"])
              ["/srv/app/games/ping.mjs"] "/srv/app/odd/config.js" ["/srv/app/games/pong.js"]
              [Demo.ping] (VNum 8080) [Demo.pong]
              eq_refl eq_refl eq_refl eq_refl eq_refl eq_refl) as (A & B & _).
  split; [exact A|exact B].
Defined.

Lemma into_instantiates_each_class_shaped_export_once_witness :
  let l := mkLoader Demo.silent_options []
             ["/srv/app/rooms/room.js"; "/srv/app/rooms/js"; "/srv/app/wide/wide.js"] in
  require Demo.host "/srv/app/rooms/room.js" = inr [Demo.Room; Demo.ping; Demo.Mute] /\
  require Demo.host "/srv/app/wide/wide.js" = inr [Demo.Wide] /\
  length (instances (state_of (into Demo.host 0 7 (world_of l)))) = 3.
Proof.
  cbn zeta. split; [reflexivity|]. split; [reflexivity|].
  exact (into_instantiates_each_class_shaped_export_once Demo.host 0 7
           (world_of (mkLoader Demo.silent_options []
                        ["/srv/app/rooms/room.js"; "/srv/app/rooms/js"; "/srv/app/wide/wide.js"]))
           (mkLoader Demo.silent_options []
                        ["/srv/app/rooms/room.js"; "/srv/app/rooms/js"; "/srv/app/wide/wide.js"])
           eq_refl eq_refl).
Defined.

Lemma into_raises_what_a_class_export_raises_witness :
  let faulty := mkLoader Demo.verbose_options []
                  ["/srv/app/faulty/ping.js"; "/srv/app/faulty/faulty.js"] in
  let port := mkLoader Demo.verbose_options [] ["/srv/app/port/port.js"] in
  let r1 := into Demo.host 0 7 (world_of faulty) in
  let r2 := into Demo.host 0 7 (world_of port) in
  (result_of r1 = Throw (JsError "no database") /\ listeners (state_of r1) = ∅) /\
  (result_of r2 = Throw (JsTypeError "instance.connection.bind is not a function") /\
   listeners (state_of r2) = ∅).
Proof.
  cbn zeta. split.
  - destruct (into_raises_what_a_class_export_raises Demo.host 0 7
                (world_of (mkLoader Demo.verbose_options []
                             ["/srv/app/faulty/ping.js"; "/srv/app/faulty/faulty.js"]))
                (mkLoader Demo.verbose_options []
                             ["/srv/app/faulty/ping.js"; "/srv/app/faulty/faulty.js"])
                ["/srv/app/faulty/ping.js"] "/srv/app/faulty/faulty.js" [] [] 17
                (to_string Demo.Faulty) [] (JsError "no database")
                eq_refl eq_refl eq_refl eq_refl eq_refl eq_refl eq_refl) as (A & B & _).
    split; [exact A|exact B].
  - destruct (into_raises_what_a_class_export_raises Demo.host 0 7
                (world_of (mkLoader Demo.verbose_options [] ["/srv/app/port/port.js"]))
                (mkLoader Demo.verbose_options [] ["/srv/app/port/port.js"])
                [] "/srv/app/port/port.js" [] [] 18
                (to_string Demo.Port) [] bind_not_a_function
                eq_refl eq_refl eq_refl eq_refl eq_refl eq_refl
                (ex_intro _ Data (conj eq_refl eq_refl))) as (A & B & _).
    split; [exact A|exact B].
Defined.

Lemma into_without_exports_registers_an_empty_listener_witness :
  let l := mkLoader Demo.verbose_options [] ["/srv/app/odd/empty.js"] in
  let r := into Demo.host 0 7 (world_of l) in
  r = (Ok tt, set_listeners {[ 7 := [mkListener 0 []] ]} (world_of l), []) /\
  emit_connection Demo.host 7 (VSocket 1) (state_of r) = (Ok tt, state_of r, []).
Proof.
  cbn zeta.
  destruct (into_without_exports_registers_an_empty_listener Demo.host 0 7 (VSocket 1)
              (world_of (mkLoader Demo.verbose_options [] ["/srv/app/odd/empty.js"]))
              (mkLoader Demo.verbose_options [] ["/srv/app/odd/empty.js"])
              eq_refl ltac:(repeat constructor)) as (A & B).
  split; [exact A|exact (B eq_refl)].
Defined.

Lemma into_twice_registers_two_listeners_witness :
  let l := mkLoader Demo.silent_options [] ["/srv/app/games/ping.mjs"] in
  let r := run_ops Demo.host [OpInto 0 7; OpInto 0 7] (world_of l) in
  result_of r = Ok tt /\
  exists fns1 fns2,
    listeners (state_of r) !! 7 = Some [mkListener 0 fns1; mkListener 0 fns2].
Proof.
  exact (into_twice_registers_two_listeners Demo.host 0 7
           (world_of (mkLoader Demo.silent_options [] ["/srv/app/games/ping.mjs"]))
           (mkLoader Demo.silent_options [] ["/srv/app/games/ping.mjs"]) eq_refl eq_refl).
Defined.

Lemma unrecognised_class_is_bound_as_a_function_witness :
  let l := mkLoader Demo.silent_options [] ["/srv/app/odd/anonymous.js"] in
  let r := into Demo.host 0 7 (world_of l) in
  class_shaped "class{ connection (io, socket) {} }" = false /\
  instances (state_of r) = [] /\
  listeners (state_of r) !! 7 = Some [mkListener 0 [Demo.Anonymous]] /\
  result_of (emit_connection Demo.host 7 (VSocket 1) (state_of r)) =
    Throw (JsTypeError "Class constructors cannot be invoked without 'new'").
Proof.
  cbn zeta. split; [reflexivity|].
  destruct (unrecognised_class_is_bound_as_a_function Demo.host 0 7 (VSocket 1)
              (world_of (mkLoader Demo.silent_options [] ["/srv/app/odd/anonymous.js"]))
              (mkLoader Demo.silent_options [] ["/srv/app/odd/anonymous.js"])
              "/srv/app/odd/anonymous.js" 15 "class{ connection (io, socket) {} }"
              eq_refl eq_refl eq_refl eq_refl eq_refl) as (_ & A & B & C).
  split; [exact A|]. split; [exact B|]. rewrite C. reflexivity.
Defined.

Lemma emit_connection_stops_at_the_first_raise_witness :
  let l := mkLoader Demo.silent_options [VStr "db"] [] in
  let args := [VServer 7; VSocket 1; VStr "db"] in
  let w1 := mkWorld [l] {[ 7 := [mkListener 0 [Demo.ping; Demo.Mute; Demo.pong];
                                 mkListener 0 [Demo.pong]] ]} [] in
  let w2 := mkWorld [l] {[ 7 := [mkListener 0 [Demo.ping; Demo.crash; Demo.pong];
                                 mkListener 0 [Demo.pong]] ]} [] in
  let r1 := emit_connection Demo.host 7 (VSocket 1) w1 in
  let r2 := emit_connection Demo.host 7 (VSocket 1) w2 in
  (result_of r1 = Throw (JsTypeError "Class constructor Mute cannot be invoked without 'new'") /\
   trace_of r1 = [ECall Demo.ping args]) /\
  (result_of r2 = Throw (JsError "boom") /\
   trace_of r2 = [ECall Demo.ping args; ECall Demo.crash args]).
Proof.
  cbn zeta. split.
  - exact (emit_connection_stops_at_the_first_raise Demo.host 0 7 (VSocket 1)
             (mkWorld [mkLoader Demo.silent_options [VStr "db"] []]
                {[ 7 := [mkListener 0 [Demo.ping; Demo.Mute; Demo.pong];
                         mkListener 0 [Demo.pong]] ]} [])
             (mkLoader Demo.silent_options [VStr "db"] [])
             [Demo.ping] Demo.Mute
             (JsTypeError "Class constructor Mute cannot be invoked without 'new'") false
             [Demo.pong] [mkListener 0 [Demo.pong]]
             eq_refl eq_refl eq_refl eq_refl).
  - exact (emit_connection_stops_at_the_first_raise Demo.host 0 7 (VSocket 1)
             (mkWorld [mkLoader Demo.silent_options [VStr "db"] []]
                {[ 7 := [mkListener 0 [Demo.ping; Demo.crash; Demo.pong];
                         mkListener 0 [Demo.pong]] ]} [])
             (mkLoader Demo.silent_options [VStr "db"] [])
             [Demo.ping] Demo.crash (JsError "boom") true
             [Demo.pong] [mkListener 0 [Demo.pong]]
             eq_refl eq_refl eq_refl eq_refl).
Defined.

Lemma facades_do_not_share_state_witness :
  let first := new_Loader Demo.silent_options in
  let second := new_Loader Demo.verbose_options in
  let script := [OpWhen 0 "games"; OpExtra 0 [VNum 1]; OpInto 0 7; OpEmit 7 (VSocket 1)] in
  loaders (state_of (run_ops Demo.host script (mkWorld [first; second] ∅ []))) !! 1 = Some second.
Proof.
  exact (facades_do_not_share_state Demo.host
           [OpWhen 0 "games"; OpExtra 0 [VNum 1]; OpInto 0 7; OpEmit 7 (VSocket 1)]
           (mkWorld [new_Loader Demo.silent_options; new_Loader Demo.verbose_options] ∅ []) 1
           ltac:(repeat constructor; discriminate)).
Defined.

Lemma getRelativeTo_drops_the_root_witness :
  getRelativeTo (new_Loader Demo.silent_options) "/srv/app/games/ping.mjs" = "./games/ping.mjs" /\
  getRelativeTo (new_Loader Demo.silent_options) "/games/ping.mjs" = "./games/ping.mjs".
Proof.
  exact (getRelativeTo_drops_the_root (new_Loader Demo.silent_options) "/games/ping.mjs"
           ltac:(discriminate) eq_refl).
Defined.

Lemma loaded_name_is_the_last_segment_witness :
  loaded_name Demo.host (new_Loader Demo.silent_options) "/srv/app/games/ping.mjs" = "ping.mjs".
Proof.
  exact (proj1 (loaded_name_is_the_last_segment Demo.host (new_Loader Demo.silent_options)
                  "/" "/games" "ping.mjs" eq_refl ltac:(discriminate) eq_refl eq_refl)).
Defined.

Lemma into_logs_one_line_per_export_witness :
  let l := mkLoader Demo.verbose_options [] ["/srv/app/rooms/room.js"; "/srv/app/odd/empty.js"] in
  trace_of (into Demo.host 0 7 (world_of l)) =
  [ELog LInfo "loaded: room.js"; ELog LInfo "loaded: room.js";
   ELog LError "cannot load route"; ELog LInfo "loaded: room.js"].
Proof.
  exact (into_logs_one_line_per_export Demo.host 0 7
           (world_of (mkLoader Demo.verbose_options []
                        ["/srv/app/rooms/room.js"; "/srv/app/odd/empty.js"]))
           (mkLoader Demo.verbose_options []
                        ["/srv/app/rooms/room.js"; "/srv/app/odd/empty.js"]) eq_refl eq_refl).
Defined.


